(** * Celestial Spark: star selection, guidance sketch and phase orchestration

    A shallow embedding of [components/StarCanvas.tsx], [components/SparkCard.tsx],
    [App.tsx], [types.ts] and [services/geminiService.ts], followed by the
    properties proved of them.

    JavaScript numbers are modelled by [number]: a real, one of the two
    infinities, or NaN.  Arithmetic on finite values is exact (rounding and
    overflow of IEEE doubles are not modelled) and zero carries no sign.
    Integer quantities that the program only counts with (array lengths, star
    ids, progress counts, timer delays in milliseconds) are [nat] or [Z]. *)

From Stdlib Require Import Reals Lra Psatz ZArith Lia List String Bool.
Import ListNotations.
Open Scope string_scope.
Open Scope list_scope.

(** ** JavaScript numbers *)

Module JSNumber.

Local Open Scope R_scope.

Inductive number : Type :=
| Fin (r : R)
| PosInf
| NegInf
| NaN.

Definition is_finite (a : number) : bool :=
  match a with Fin _ => true | _ => false end.

(** [a + b] *)
Definition add (a b : number) : number :=
  match a, b with
  | NaN, _ | _, NaN => NaN
  | Fin u, Fin v => Fin (u + v)
  | PosInf, NegInf | NegInf, PosInf => NaN
  | PosInf, _ | _, PosInf => PosInf
  | NegInf, _ | _, NegInf => NegInf
  end.

(** [a - b] *)
Definition sub (a b : number) : number :=
  match a, b with
  | NaN, _ | _, NaN => NaN
  | Fin u, Fin v => Fin (u - v)
  | PosInf, PosInf | NegInf, NegInf => NaN
  | PosInf, _ | _, NegInf => PosInf
  | NegInf, _ | _, PosInf => NegInf
  end.

(** The infinity carrying the sign of [u] (flipped when [positive] is
    [false]); NaN when [u] is zero. *)
Definition signed_inf (positive : bool) (u : R) : number :=
  if Rlt_dec 0 u then (if positive then PosInf else NegInf)
  else if Rlt_dec u 0 then (if positive then NegInf else PosInf)
  else NaN.

(** [a * b] *)
Definition mul (a b : number) : number :=
  match a, b with
  | NaN, _ | _, NaN => NaN
  | Fin u, Fin v => Fin (u * v)
  | Fin u, PosInf | PosInf, Fin u => signed_inf true u
  | Fin u, NegInf | NegInf, Fin u => signed_inf false u
  | PosInf, PosInf | NegInf, NegInf => PosInf
  | PosInf, NegInf | NegInf, PosInf => NegInf
  end.

(** [a / b]: a finite quotient only when the divisor is a non-zero real. *)
Definition div (a b : number) : number :=
  match a, b with
  | NaN, _ | _, NaN => NaN
  | Fin u, Fin v => if Req_dec_T v 0 then signed_inf true u else Fin (u / v)
  | Fin _, PosInf | Fin _, NegInf => Fin 0
  | PosInf, Fin v => if Rlt_dec v 0 then NegInf else PosInf
  | NegInf, Fin v => if Rlt_dec v 0 then PosInf else NegInf
  | _, _ => NaN
  end.

(** [a < b]; every comparison with NaN is false. *)
Definition lt (a b : number) : bool :=
  match a, b with
  | NaN, _ | _, NaN => false
  | Fin u, Fin v => if Rlt_dec u v then true else false
  | _, NegInf => false
  | NegInf, _ => true
  | PosInf, _ => false
  | Fin _, PosInf => true
  end.

(** [a > b] *)
Definition gt (a b : number) : bool := lt b a.

Definition is_nan (a : number) : bool :=
  match a with NaN => true | _ => false end.

Definition Math_min (a b : number) : number :=
  if is_nan a || is_nan b then NaN else if lt b a then b else a.

Definition Math_max (a b : number) : number :=
  if is_nan a || is_nan b then NaN else if lt a b then b else a.

Definition Math_sqrt (a : number) : number :=
  match a with
  | Fin u => if Rlt_dec u 0 then NaN else Fin (sqrt u)
  | PosInf => PosInf
  | _ => NaN
  end.

(** [Math.pow(a, n)] for a natural exponent. *)
Fixpoint Math_pow (a : number) (n : nat) : number :=
  match n with
  | O => Fin 1
  | S m => mul a (Math_pow a m)
  end.

(** [Math.round]: the nearest integer, halves going up. *)
Definition Math_round (a : number) : number :=
  match a with
  | Fin u => Fin (IZR (Zfloor (u + / 2)))
  | other => other
  end.

Definition Math_PI : number := Fin PI.

End JSNumber.

Export JSNumber.

Declare Scope js_scope.
Delimit Scope js_scope with js.
Bind Scope js_scope with number.
Infix "+" := add : js_scope.
Infix "-" := sub : js_scope.
Infix "*" := mul : js_scope.
Infix "/" := div : js_scope.
Infix "<?" := lt : js_scope.
Infix ">?" := gt : js_scope.
Coercion Fin : R >-> number.

(** ** [types.ts] *)

Record Point : Type := { x : number; y : number }.

(** [interface Star extends Point]: a star is a point with further fields. *)
Record Star : Type := {
  star_point :> Point;
  id : Z;
  size : number;
  alpha : number;
  isSelected : bool
}.

Record ConstellationMetadata : Type := {
  name : string;
  horoscope : string;
  visualPrompt : string
}.

Inductive AppPhase : Type :=
| INTRO
| SELECTING
| CONNECTING
| GENERATING_METADATA
| GENERATING_IMAGE
| RESULT
| EDITING.

Record GeneratedAsset : Type := {
  imageBase64 : string;
  metadata : ConstellationMetadata
}.

(** ** Promises, errors and the host environment *)

Inductive JsError : Type :=
| Error (message : string)
| TypeError
| SyntaxError
| ApiFailure (detail : string).

(** The settled state of an awaited promise. *)
Inductive Settled (A : Type) : Type :=
| Fulfilled (value : A)
| Rejected (reason : JsError).

Arguments Fulfilled {A} value.
Arguments Rejected {A} reason.

Definition bind {A B : Type} (m : Settled A) (k : A -> Settled B) : Settled B :=
  match m with
  | Fulfilled a => k a
  | Rejected e => Rejected e
  end.

(** [try { body } catch (error) { handler }] *)
Definition try_catch {A : Type} (body : Settled A) (handler : JsError -> Settled A)
  : Settled A :=
  match body with
  | Fulfilled a => Fulfilled a
  | Rejected e => handler e
  end.

(** Truthiness of a string: only the empty string is falsy. *)
Definition truthy (s : string) : bool := negb (String.eqb s EmptyString).

(** *** The 2D canvas, as far as the sketch uses it *)

Inductive PathCmd : Type :=
| MoveTo (px py : number)
| LineTo (px py : number)
| Arc (cx cy radius startAngle endAngle : number).

Inductive Paint : Type :=
| FillRect (style : string) (left top w h : number)
| Stroke (style : string) (width : number) (cap join : string) (path : list PathCmd)
| Fill (style : string) (path : list PathCmd).

Record Context2D : Type := {
  fillStyle : string;
  strokeStyle : string;
  lineWidth : number;
  lineCap : string;
  lineJoin : string;
  path : list PathCmd;
  painted : list Paint
}.

Definition fresh_context : Context2D :=
  {| fillStyle := "#000000"; strokeStyle := "#000000"; lineWidth := Fin 1;
     lineCap := "butt"; lineJoin := "miter"; path := []; painted := [] |}.

Definition set_fillStyle (v : string) (c : Context2D) : Context2D :=
  {| fillStyle := v; strokeStyle := strokeStyle c; lineWidth := lineWidth c;
     lineCap := lineCap c; lineJoin := lineJoin c; path := path c;
     painted := painted c |}.

Definition set_strokeStyle (v : string) (c : Context2D) : Context2D :=
  {| fillStyle := fillStyle c; strokeStyle := v; lineWidth := lineWidth c;
     lineCap := lineCap c; lineJoin := lineJoin c; path := path c;
     painted := painted c |}.

Definition set_lineWidth (v : number) (c : Context2D) : Context2D :=
  {| fillStyle := fillStyle c; strokeStyle := strokeStyle c; lineWidth := v;
     lineCap := lineCap c; lineJoin := lineJoin c; path := path c;
     painted := painted c |}.

Definition set_lineCap (v : string) (c : Context2D) : Context2D :=
  {| fillStyle := fillStyle c; strokeStyle := strokeStyle c; lineWidth := lineWidth c;
     lineCap := v; lineJoin := lineJoin c; path := path c; painted := painted c |}.

Definition set_lineJoin (v : string) (c : Context2D) : Context2D :=
  {| fillStyle := fillStyle c; strokeStyle := strokeStyle c; lineWidth := lineWidth c;
     lineCap := lineCap c; lineJoin := v; path := path c; painted := painted c |}.

Definition set_path (v : list PathCmd) (c : Context2D) : Context2D :=
  {| fillStyle := fillStyle c; strokeStyle := strokeStyle c; lineWidth := lineWidth c;
     lineCap := lineCap c; lineJoin := lineJoin c; path := v; painted := painted c |}.

Definition paint (m : Paint) (c : Context2D) : Context2D :=
  {| fillStyle := fillStyle c; strokeStyle := strokeStyle c; lineWidth := lineWidth c;
     lineCap := lineCap c; lineJoin := lineJoin c; path := path c;
     painted := painted c ++ [m] |}.

Definition fillRect (left top w h : number) (c : Context2D) : Context2D :=
  paint (FillRect (fillStyle c) left top w h) c.

Definition beginPath (c : Context2D) : Context2D := set_path [] c.

Definition moveTo (px py : number) (c : Context2D) : Context2D :=
  set_path (path c ++ [MoveTo px py]) c.

Definition lineTo (px py : number) (c : Context2D) : Context2D :=
  set_path (path c ++ [LineTo px py]) c.

Definition arc (cx cy radius startAngle endAngle : number) (c : Context2D)
  : Context2D :=
  set_path (path c ++ [Arc cx cy radius startAngle endAngle]) c.

Definition stroke (c : Context2D) : Context2D :=
  paint (Stroke (strokeStyle c) (lineWidth c) (lineCap c) (lineJoin c) (path c)) c.

Definition fill (c : Context2D) : Context2D :=
  paint (Fill (fillStyle c) (path c)) c.

(** What [createConstellationSketch] returns: the empty string, or the base64
    PNG payload of a canvas, which stands here for the canvas it encodes (its
    size and what was painted on it, in order). *)
Inductive SketchData : Type :=
| EmptySketch
| PngOf (width height : number) (marks : list Paint).

(** [array.forEach((item, i) => ...)] with the state the callback updates
    threaded through. *)
Fixpoint forEach_from {A St : Type} (i : nat) (f : A -> nat -> St -> St)
  (l : list A) (s : St) : St :=
  match l with
  | [] => s
  | a :: rest => forEach_from (S i) f rest (f a i s)
  end.

Definition forEach {A St : Type} (f : A -> nat -> St -> St) (l : list A) (s : St)
  : St :=
  forEach_from 0 f l s.

(** *** The generation service and the browser

    The external service is an oracle: what it answers to a request is part
    of the host.  A request is given by the call site and its parameters (the
    prompt texts are fixed templates around them). *)

Record InlineData : Type := { mimeType : option string; data : option string }.

Record Part : Type := { part_text : option string; inlineData : option InlineData }.

Record Content : Type := { parts : option (list Part) }.

Record Candidate : Type := { content : option Content }.

Record GenerateContentResponse : Type := {
  text : option string;
  candidates : option (list Candidate)
}.

Inductive GenRequest : Type :=
| MetadataRequest (normalizedStars : list Point)
| ImageRequest (prompt : string) (sketchBase64 : SketchData)
| EditRequest (base64Image : string) (editInstruction : string).

Record Host : Type := {
  generateContent : GenRequest -> Settled GenerateContentResponse;
  (** [JSON.parse(text) as ConstellationMetadata]; [None] when it throws.  The
      cast is not checked at run time: a text that parses is taken to hold the
      three strings, as the response schema of the request demands. *)
  JSON_parse : string -> option ConstellationMetadata;
  has_document : bool;
  has_context2d : bool;
  innerWidth : number;
  innerHeight : number
}.

(** ** [services/geminiService.ts] *)

Module GeminiService.

Local Open Scope js_scope.
Local Open Scope string_scope.

(** The coordinates sent to the model, on a 0-100 scale. *)
Definition normalizedStars (stars : list Point) (canvasWidth canvasHeight : number)
  : list Point :=
  map (fun s => {| x := Math_round ((x s / canvasWidth) * Fin 100);
                   y := Math_round ((y s / canvasHeight) * Fin 100) |}) stars.

Definition fallbackMetadata : ConstellationMetadata :=
  {| name := "The Unseen Path";
     horoscope := "Your 2026 is a canvas waiting for your own light to guide the way.";
     visualPrompt := "A glowing mystic constellation on a dark blue card, gold filigree borders, holographic style." |}.

Definition generateConstellationMetadata (h : Host) (stars : list Point)
  (canvasWidth canvasHeight : number) : Settled ConstellationMetadata :=
  let prompt := MetadataRequest (normalizedStars stars canvasWidth canvasHeight) in
  try_catch
    (bind (generateContent h prompt) (fun response =>
       match text response with
       | Some t =>
           if truthy t then
             match JSON_parse h t with
             | Some parsed => Fulfilled parsed
             | None => Rejected SyntaxError
             end
           else Rejected (Error "No text returned from Gemini")
       | None => Rejected (Error "No text returned from Gemini")
       end))
    (fun error => Fulfilled fallbackMetadata).

(** The canvas of the sketch: 768 by 1024. *)
Definition canvas_width : number := Fin 768.
Definition canvas_height : number := Fin 1024.

Definition targetW : number := canvas_width * Fin 0.6.
Definition targetH : number := canvas_height * Fin 0.4.
Definition targetCenterX : number := canvas_width / Fin 2.
Definition targetCenterY : number := canvas_height * Fin 0.35.

(** The bounding box scan: [(minX, maxX, minY, maxY)]. *)
Definition BoundingBox : Type := (number * number * number * number)%type.

Definition boundingBox (stars : list Point) : BoundingBox :=
  forEach (fun p _ '(minX, maxX, minY, maxY) =>
             (Math_min minX (x p), Math_max maxX (x p),
              Math_min minY (y p), Math_max maxY (y p)))
          stars (PosInf, NegInf, PosInf, NegInf).

Definition scaleX (width : number) : number :=
  if width >? Fin 0 then targetW / width else Fin 1.

Definition scaleY (height : number) : number :=
  if height >? Fin 0 then targetH / height else Fin 1.

Definition scaleOf (width height : number) : number :=
  Math_min (scaleX width) (scaleY height).

(** [drawX] and [drawY] of a point, as both drawing loops compute them. *)
Definition drawX (minX width scale : number) (p : Point) : number :=
  let relX := x p - (minX + width / Fin 2) in
  targetCenterX + (relX * scale).

Definition drawY (minY height scale : number) (p : Point) : number :=
  let relY := y p - (minY + height / Fin 2) in
  targetCenterY + (relY * scale).

Definition createConstellationSketch (h : Host) (stars : list Point) : SketchData :=
  if negb (has_document h) then EmptySketch else
  if negb (has_context2d h) then EmptySketch else
  let ctx := fresh_context in
  (* 1. black background *)
  let ctx := set_fillStyle "#000000" ctx in
  let ctx := fillRect (Fin 0) (Fin 0) canvas_width canvas_height ctx in
  if (List.length stars =? 0)%nat then PngOf canvas_width canvas_height (painted ctx) else
  (* 2. bounding box of the input *)
  let '(minX, maxX, minY, maxY) := boundingBox stars in
  let width := maxX - minX in
  let height := maxY - minY in
  (* 4. scale *)
  let scale := scaleOf width height in
  (* 5. connection lines *)
  let ctx := set_strokeStyle "#ffffff" ctx in
  let ctx := set_lineWidth (Fin 15) ctx in
  let ctx := set_lineCap "round" ctx in
  let ctx := set_lineJoin "round" ctx in
  let ctx := beginPath ctx in
  let ctx := forEach (fun p i c =>
                        let dx := drawX minX width scale p in
                        let dy := drawY minY height scale p in
                        if (i =? 0)%nat then moveTo dx dy c else lineTo dx dy c)
                     stars ctx in
  let ctx := stroke ctx in
  (* nodes *)
  let ctx := set_fillStyle "#ffffff" ctx in
  let ctx := forEach (fun p _ c =>
                        let dx := drawX minX width scale p in
                        let dy := drawY minY height scale p in
                        fill (arc dx dy (Fin 20) (Fin 0) (Math_PI * Fin 2) (beginPath c)))
                     stars ctx in
  PngOf canvas_width canvas_height (painted ctx).

(** The first part carrying image data, as both image calls look for it;
    [message] is the error thrown when there is none. *)
Definition has_image_data (part : Part) : bool :=
  match inlineData part with
  | Some inline => match data inline with Some d => truthy d | None => false end
  | None => false
  end.

Definition image_data (part : Part) : string :=
  match inlineData part with
  | Some inline => match data inline with Some d => d | None => "" end
  | None => ""
  end.

Definition extractImage (message : string) (response : GenerateContentResponse)
  : Settled string :=
  match candidates response with
  | Some cands =>
      match cands with
      | first :: _ =>
          match content first with
          | Some c =>
              match parts c with
              | Some ps =>
                  match find has_image_data ps with
                  | Some part => Fulfilled (image_data part)
                  | None => Rejected (Error message)
                  end
              | None => Rejected (Error message)
              end
          | None => Rejected TypeError
          end
      | [] => Rejected TypeError
      end
  | None => Rejected (Error message)
  end.

Definition generateCardImage (h : Host) (prompt : string) (stars : list Point)
  : Settled string :=
  try_catch
    (let sketchBase64 := createConstellationSketch h stars in
     bind (generateContent h (ImageRequest prompt sketchBase64))
          (extractImage "No image data found in response"))
    (fun error => Rejected error).

Definition editCardImage (h : Host) (base64Image editInstruction : string)
  : Settled string :=
  try_catch
    (bind (generateContent h (EditRequest base64Image editInstruction))
          (extractImage "No edited image returned"))
    (fun error => Rejected error).

End GeminiService.

(** ** [components/StarCanvas.tsx] *)

Module StarCanvas.

Local Open Scope js_scope.

Definition TOTAL_STARS : nat := 80.
Definition CONNECTION_SPEED : Z := 200.

(** The component's state hooks. *)
Record State : Type := {
  stars : list Star;
  selectedStars : list Star;
  isAnimatingConnection : bool
}.

(** The state a freshly mounted canvas starts from. *)
Definition mounted : State :=
  {| stars := []; selectedStars := []; isAnimatingConnection := false |}.

Definition setStars (v : list Star) (st : State) : State :=
  {| stars := v; selectedStars := selectedStars st;
     isAnimatingConnection := isAnimatingConnection st |}.

Definition setSelectedStars (v : list Star) (st : State) : State :=
  {| stars := stars st; selectedStars := v;
     isAnimatingConnection := isAnimatingConnection st |}.

Definition setIsAnimatingConnection (v : bool) (st : State) : State :=
  {| stars := stars st; selectedStars := selectedStars st;
     isAnimatingConnection := v |}.

(** What the component does to the outside: a progress report to its parent,
    or a timer whose callback is [() => onStarsSelected(arg)]. *)
Inductive Effect : Type :=
| Progress (count : nat)
| SetTimeout (delay : Z) (arg : list Star).

Record PointerEvent : Type := { clientX : number; clientY : number }.

(** [canvas.getBoundingClientRect()] *)
Record DOMRect : Type := { left : number; top : number }.

(** The distance of the pointer at [(px, py)] to a star. *)
Definition dist (px py : number) (star : Star) : number :=
  Math_sqrt (Math_pow (x star - px) 2 + Math_pow (y star - py) 2).

(** The scan for the closest star: [(closestStar, minDist)], starting from no
    star and the hit radius. *)
Definition closest (px py : number) (field : list Star) : option Star * number :=
  forEach (fun star _ '(closestStar, minDist) =>
             if dist px py star <? minDist then (Some star, dist px py star)
             else (closestStar, minDist))
          field (None, Fin 50).

(** [canvas] is [canvasRef.current], [None] when the ref is empty. *)
Definition handleCanvasInteraction (isActive : bool) (canvas : option DOMRect)
  (e : PointerEvent) (st : State) : State * list Effect :=
  if negb isActive || (5 <=? List.length (selectedStars st))%nat then (st, []) else
  match canvas with
  | None => (st, [])
  | Some rect =>
      let px := clientX e - left rect in
      let py := clientY e - top rect in
      match fst (closest px py (stars st)) with
      | Some s =>
          (* the same star may be selected again *)
          let newSelection := selectedStars st ++ [s] in
          (setSelectedStars newSelection st, [Progress (List.length newSelection)])
      | None => (st, [])
      end
  end.

(** The body of the connecting-animation effect. *)
Definition connectionEffect (st : State) : State * list Effect :=
  if (List.length (selectedStars st) =? 5)%nat && negb (isAnimatingConnection st) then
    let delay := (Z.of_nat (List.length (selectedStars st)) * CONNECTION_SPEED + 500)%Z in
    (setIsAnimatingConnection true st, [SetTimeout delay (selectedStars st)])
  else (st, []).

(** What can happen to a mounted canvas: a pointer press, a run of the
    connection effect (React runs it after a render in which the selection or
    the animating flag changed), or [initStars] storing a new field. *)
Inductive Event : Type :=
| PointerDown (isActive : bool) (canvas : option DOMRect) (e : PointerEvent)
| RunConnectionEffect
| StarsInitialized (newStars : list Star).

Definition step (ev : Event) (st : State) : State * list Effect :=
  match ev with
  | PointerDown isActive canvas e => handleCanvasInteraction isActive canvas e st
  | RunConnectionEffect => connectionEffect st
  | StarsInitialized newStars => (setStars newStars st, [])
  end.

Fixpoint run (evs : list Event) (st : State) : State * list Effect :=
  match evs with
  | [] => (st, [])
  | ev :: rest =>
      let '(st1, out1) := step ev st in
      let '(st2, out2) := run rest st1 in
      (st2, out1 ++ out2)
  end.

(** React's schedule: after the handler of an event the component renders and
    the effect runs; when the effect set the animating flag it renders and
    runs once more. *)
Definition rendered (evs : list Event) : list Event :=
  flat_map (fun ev => [ev; RunConnectionEffect; RunConnectionEffect]) evs.

Definition timeouts (out : list Effect) : list (Z * list Star) :=
  flat_map (fun o => match o with SetTimeout d a => [(d, a)] | Progress _ => [] end) out.

End StarCanvas.

(** ** [App.tsx] *)

Module App.

Import GeminiService.
Local Open Scope string_scope.

Record State : Type := {
  phase : AppPhase;
  selectedStars : list Point;
  starCount : nat;
  constellationData : option ConstellationMetadata;
  generatedImage : option string;
  canvasKey : nat
}.

Definition initial : State :=
  {| phase := INTRO; selectedStars := []; starCount := 0;
     constellationData := None; generatedImage := None; canvasKey := 0 |}.

Definition setPhase (v : AppPhase) (s : State) : State :=
  {| phase := v; selectedStars := selectedStars s; starCount := starCount s;
     constellationData := constellationData s; generatedImage := generatedImage s;
     canvasKey := canvasKey s |}.

Definition setSelectedStars (v : list Point) (s : State) : State :=
  {| phase := phase s; selectedStars := v; starCount := starCount s;
     constellationData := constellationData s; generatedImage := generatedImage s;
     canvasKey := canvasKey s |}.

Definition setStarCount (v : nat) (s : State) : State :=
  {| phase := phase s; selectedStars := selectedStars s; starCount := v;
     constellationData := constellationData s; generatedImage := generatedImage s;
     canvasKey := canvasKey s |}.

Definition setConstellationData (v : option ConstellationMetadata) (s : State)
  : State :=
  {| phase := phase s; selectedStars := selectedStars s; starCount := starCount s;
     constellationData := v; generatedImage := generatedImage s;
     canvasKey := canvasKey s |}.

Definition setGeneratedImage (v : option string) (s : State) : State :=
  {| phase := phase s; selectedStars := selectedStars s; starCount := starCount s;
     constellationData := constellationData s; generatedImage := v;
     canvasKey := canvasKey s |}.

Definition setCanvasKey (v : nat) (s : State) : State :=
  {| phase := phase s; selectedStars := selectedStars s; starCount := starCount s;
     constellationData := constellationData s; generatedImage := generatedImage s;
     canvasKey := v |}.

Definition startJourney (s : State) : State :=
  setCanvasKey (canvasKey s + 1)
    (setGeneratedImage None
       (setConstellationData None
          (setStarCount 0 (setSelectedStars [] (setPhase SELECTING s))))).

Definition handleStarProgress (count : nat) (s : State) : State :=
  setStarCount count s.

(** What an asynchronous handler lets the user see, in order: a state it
    commits before it next suspends or returns, or an alert box. *)
Inductive Observation : Type :=
| Commit (s : State)
| Alert (message : string).

Definition handleStarsSelected (h : Host) (chosen : list Point) (s : State)
  : list Observation :=
  let s1 := setPhase GENERATING_METADATA (setSelectedStars chosen s) in
  Commit s1 ::
  match generateConstellationMetadata h chosen (innerWidth h) (innerHeight h) with
  | Fulfilled metadata =>
      let s2 := setPhase GENERATING_IMAGE (setConstellationData (Some metadata) s1) in
      Commit s2 ::
      match generateCardImage h (visualPrompt metadata) chosen with
      | Fulfilled imageBase64 =>
          [Commit (setPhase RESULT (setGeneratedImage (Some imageBase64) s2))]
      | Rejected error =>
          [Alert "The stars are cloudy tonight. Please try gazing again.";
           Commit (setPhase INTRO s2)]
      end
  | Rejected error =>
      [Alert "The stars are cloudy tonight. Please try gazing again.";
       Commit (setPhase INTRO s1)]
  end.

Definition handleEdit (h : Host) (instruction : string) (s : State)
  : list Observation :=
  match generatedImage s with
  | Some current =>
      if truthy current then
        let previousPhase := phase s in
        let s1 := setPhase EDITING s in
        Commit s1 ::
        match editCardImage h current instruction with
        | Fulfilled newImageBase64 =>
            [Commit (setPhase RESULT (setGeneratedImage (Some newImageBase64) s1))]
        | Rejected error =>
            [Alert "The magic weave resisted the change. Try a different instruction.";
             Commit (setPhase previousPhase s1)]
        end
      else []
  | None => []
  end.

(** The state the application is in after a handler's observations. *)
Definition final (obs : list Observation) (s : State) : State :=
  fold_left (fun acc o => match o with Commit s1 => s1 | Alert _ => acc end) obs s.

Definition commits (obs : list Observation) : list State :=
  flat_map (fun o => match o with Commit s1 => [s1] | Alert _ => [] end) obs.

Definition alerts (obs : list Observation) : list string :=
  flat_map (fun o => match o with Alert m => [m] | Commit _ => [] end) obs.

(** The asset on screen: [SparkCard] is rendered in the result and editing
    phases when both the metadata and the image are set. *)
Definition surfaced (s : State) : option GeneratedAsset :=
  match phase s, constellationData s, generatedImage s with
  | (RESULT | EDITING), Some m, Some img =>
      if truthy img then Some {| imageBase64 := img; metadata := m |} else None
  | _, _, _ => None
  end.

End App.

(** ** The handlers of [App.tsx] in sequence

    The handlers the interface can call, each with the host as it is while
    the handler runs.  A handler runs to its end before the next one starts:
    while it waits for the service the phase is a generating or the editing
    phase, in which the interface offers no enabled control and the canvas is
    inactive.  Which handler the interface offers in which phase is not
    restricted here, so that what holds of every sequence holds of those the
    interface allows. *)

Module Journey.

Import App.

Inductive Event : Type :=
| Start                                   (* [startJourney] *)
| ProgressReported (count : nat)          (* [handleStarProgress] *)
| StarsSelected (chosen : list Point)     (* [handleStarsSelected] *)
| EditRequested (instruction : string).   (* [handleEdit] *)

Definition dispatch (h : Host) (ev : Event) (s : State) : list Observation :=
  match ev with
  | Start => [Commit (startJourney s)]
  | ProgressReported count => [Commit (handleStarProgress count s)]
  | StarsSelected chosen => handleStarsSelected h chosen s
  | EditRequested instruction => handleEdit h instruction s
  end.

Fixpoint run (evs : list (Host * Event)) (s : State) : list Observation :=
  match evs with
  | [] => []
  | (h, ev) :: rest =>
      let obs := dispatch h ev s in
      obs ++ run rest (final obs s)
  end.

(** The progress reports of the canvas as [App] receives them
    ([onProgress={handleStarProgress}]); setting a timer reports nothing. *)
Definition deliver (out : list StarCanvas.Effect) (s : State) : State :=
  fold_left (fun acc o =>
               match o with
               | StarCanvas.Progress count => handleStarProgress count acc
               | StarCanvas.SetTimeout _ _ => acc
               end) out s.

(** The number shown in the selecting hint: [Math.max(0, 5 - starCount)]. *)
Definition remaining (s : State) : Z := Z.max 0 (5 - Z.of_nat (starCount s)).

(** The canvas is interactive in the selecting phase only
    ([isActive={phase === AppPhase.SELECTING}]). *)
Definition isActive (s : State) : bool :=
  match phase s with SELECTING => true | _ => false end.

End Journey.

(** ** [components/StarCanvas.tsx]: the star field

    [Math.random] is an input: [rand k] is the [k]-th number it returns
    during the call. *)

Module StarField.

Import StarCanvas.
Local Open Scope js_scope.

(** The canvas element: the size of its drawing buffer, and the size of its
    bounding client rectangle. *)
Record CanvasElement : Type := {
  width : number;
  height : number;
  bounds_width : number;
  bounds_height : number
}.

(** The star pushed in round [i] of the loop, [k] numbers having been drawn
    before. *)
Definition newStar (w h : number) (rand : nat -> number) (i k : nat) : Star :=
  {| star_point := {| x := rand k * w; y := rand (k + 1)%nat * h |};
     id := Z.of_nat i;
     size := rand (k + 2)%nat * Fin 2 + Fin 1;
     alpha := rand (k + 3)%nat * Fin 0.5 + Fin 0.3;
     isSelected := false |}.

(** [for (let i = ...; i < TOTAL_STARS; i++) newStars.push({...})], with
    [rounds] rounds to go. *)
Fixpoint pushStars (rounds : nat) (w h : number) (rand : nat -> number) (i k : nat)
  (newStars : list Star) : list Star :=
  match rounds with
  | O => newStars
  | S more => pushStars more w h rand (S i) (k + 4) (newStars ++ [newStar w h rand i k])
  end.

(** [canvas] is [canvasRef.current]. *)
Definition initStars (canvas : option CanvasElement) (rand : nat -> number) (st : State)
  : option CanvasElement * State :=
  match canvas with
  | None => (None, st)
  | Some el =>
      let w := bounds_width el in
      let h := bounds_height el in
      (* the drawing buffer takes the displayed size *)
      let el := {| width := w; height := h; bounds_width := bounds_width el;
                   bounds_height := bounds_height el |} in
      let newStars := pushStars TOTAL_STARS w h rand 0 0 [] in
      (Some el, setStars newStars st)
  end.

End StarField.

(** ** [components/StarCanvas.tsx]: the draw loop *)

Module RenderLoop.

Import StarCanvas StarField.
Local Open Scope js_scope.

(** A fill style: a fixed CSS colour, or the white of the template
    [rgba(255, 255, 255, ${a})] with the number put into it. *)
Inductive FillStyle : Type :=
| Css (value : string)
| WhiteAlpha (a : number).

(** What a frame paints on the canvas, each mark with the styles in force
    when it is painted. *)
Inductive Mark : Type :=
| ClearRect (left top w h : number)
| Stroked (style : string) (width blur : number) (shadow : string) (path : list PathCmd)
| Filled (style : FillStyle) (blur : number) (shadow : string) (path : list PathCmd).

(** The 2D context of the star canvas; it lives across frames. *)
Record Context : Type := {
  fillStyle : FillStyle;
  strokeStyle : string;
  lineWidth : number;
  shadowBlur : number;
  shadowColor : string;
  path : list PathCmd;
  marks : list Mark
}.

Definition set_fillStyle (v : FillStyle) (c : Context) : Context :=
  {| fillStyle := v; strokeStyle := strokeStyle c; lineWidth := lineWidth c;
     shadowBlur := shadowBlur c; shadowColor := shadowColor c; path := path c;
     marks := marks c |}.

Definition set_strokeStyle (v : string) (c : Context) : Context :=
  {| fillStyle := fillStyle c; strokeStyle := v; lineWidth := lineWidth c;
     shadowBlur := shadowBlur c; shadowColor := shadowColor c; path := path c;
     marks := marks c |}.

Definition set_lineWidth (v : number) (c : Context) : Context :=
  {| fillStyle := fillStyle c; strokeStyle := strokeStyle c; lineWidth := v;
     shadowBlur := shadowBlur c; shadowColor := shadowColor c; path := path c;
     marks := marks c |}.

Definition set_shadowBlur (v : number) (c : Context) : Context :=
  {| fillStyle := fillStyle c; strokeStyle := strokeStyle c; lineWidth := lineWidth c;
     shadowBlur := v; shadowColor := shadowColor c; path := path c; marks := marks c |}.

Definition set_shadowColor (v : string) (c : Context) : Context :=
  {| fillStyle := fillStyle c; strokeStyle := strokeStyle c; lineWidth := lineWidth c;
     shadowBlur := shadowBlur c; shadowColor := v; path := path c; marks := marks c |}.

Definition set_path (v : list PathCmd) (c : Context) : Context :=
  {| fillStyle := fillStyle c; strokeStyle := strokeStyle c; lineWidth := lineWidth c;
     shadowBlur := shadowBlur c; shadowColor := shadowColor c; path := v;
     marks := marks c |}.

Definition mark (m : Mark) (c : Context) : Context :=
  {| fillStyle := fillStyle c; strokeStyle := strokeStyle c; lineWidth := lineWidth c;
     shadowBlur := shadowBlur c; shadowColor := shadowColor c; path := path c;
     marks := marks c ++ [m] |}.

Definition clearRect (left top w h : number) (c : Context) : Context :=
  mark (ClearRect left top w h) c.

Definition beginPath (c : Context) : Context := set_path [] c.

Definition moveTo (px py : number) (c : Context) : Context :=
  set_path (path c ++ [MoveTo px py]) c.

Definition lineTo (px py : number) (c : Context) : Context :=
  set_path (path c ++ [LineTo px py]) c.

Definition arc (cx cy radius startAngle endAngle : number) (c : Context) : Context :=
  set_path (path c ++ [Arc cx cy radius startAngle endAngle]) c.

Definition stroke (c : Context) : Context :=
  mark (Stroked (strokeStyle c) (lineWidth c) (shadowBlur c) (shadowColor c) (path c)) c.

Definition fill (c : Context) : Context :=
  mark (Filled (fillStyle c) (shadowBlur c) (shadowColor c) (path c)) c.

(** [for (let i = ...; i < limit - 1; i++)] joining [selectedStars[i]] to
    [selectedStars[i + 1]], with [rounds] rounds to go.  Both indices are
    below the length in every round; the last branch is never taken. *)
Fixpoint drawLines (rounds i : nat) (selected : list Star) (c : Context) : Context :=
  match rounds with
  | O => c
  | S more =>
      match nth_error selected i, nth_error selected (S i) with
      | Some a, Some b =>
          drawLines more (S i) selected (lineTo (x b) (y b) (moveTo (x a) (y a) c))
      | _, _ => c
      end
  end.

(** The body of [stars.forEach], with the number of draws made so far. *)
Definition drawStar (selected : list Star) (rand : nat -> number) (star : Star)
  (ck : Context * nat) : Context * nat :=
  let '(c, k) := ck in
  let c := beginPath c in
  let isSelected := existsb (fun s => Z.eqb (id s) (id star)) selected in
  let '(c, k) :=
    if isSelected then
      let c := set_fillStyle (Css "rgba(255, 215, 0, 1)") c in
      let c := set_shadowBlur (Fin 15) c in
      let c := set_shadowColor "#FFD700" c in
      (arc (x star) (y star) (size star * Fin 2.5) (Fin 0) (Math_PI * Fin 2) c, k)
    else
      let twinkle := rand k * Fin 0.2 in
      let c := set_fillStyle
                 (WhiteAlpha
                    (Math_max (Fin 0)
                       (Math_min (Fin 1)
                          (alpha star
                           + (if rand (S k) >? Fin 0.9 then twinkle else Fin 0)))))
                 c in
      let c := set_shadowBlur (Fin 0) c in
      (arc (x star) (y star) (size star) (Fin 0) (Math_PI * Fin 2) c, (k + 2)%nat)
  in
  (set_shadowBlur (Fin 0) (fill c), k).

(** One frame.  [canvas] is [canvasRef.current] and [has_context] tells
    whether it gives a 2D context; the result says whether the frame asked for
    the next one. *)
Definition render (canvas : option CanvasElement) (has_context : bool)
  (rand : nat -> number) (st : State) (c : Context) : Context * bool :=
  match canvas with
  | None => (c, false)
  | Some el =>
      if negb has_context then (c, false) else
      let c := clearRect (Fin 0) (Fin 0) (width el) (height el) c in
      let c :=
        if (1 <? List.length (selectedStars st))%nat then
          let c := beginPath c in
          let c := set_strokeStyle "rgba(255, 215, 0, 0.6)" c in
          let c := set_lineWidth (Fin 2) c in
          let limit := List.length (selectedStars st) in
          let c := drawLines (limit - 1) 0 (selectedStars st) c in
          stroke c
        else c in
      let '(c, _) := forEach (fun star _ ck => drawStar (selectedStars st) rand star ck)
                             (stars st) (c, 0%nat) in
      (c, true)
  end.

End RenderLoop.

(** ** [components/SparkCard.tsx]

    Strings are byte strings; the white space of [\s] and of [trim], and the
    letters [toLowerCase] changes, are those of ASCII.  On strings of ASCII
    characters this is what JavaScript does. *)

Module SparkCard.

Import Ascii.

(** A character of the class [\s]. *)
Definition is_space (c : ascii) : bool :=
  let n := nat_of_ascii c in
  ((9 <=? n) && (n <=? 13) || (n =? 32))%nat.

Definition is_upper (c : ascii) : bool :=
  let n := nat_of_ascii c in
  ((65 <=? n) && (n <=? 90))%nat.

Definition lower (c : ascii) : ascii :=
  if is_upper c then ascii_of_nat (nat_of_ascii c + 32) else c.

Fixpoint toLowerCase (s : string) : string :=
  match s with
  | EmptyString => EmptyString
  | String c rest => String (lower c) (toLowerCase rest)
  end.

(** [s.replace(/\s+/g, '-')]: every maximal run of white space becomes one
    dash; [in_run] tells that the character before was white space. *)
Fixpoint replaceSpaceRuns (in_run : bool) (s : string) : string :=
  match s with
  | EmptyString => EmptyString
  | String c rest =>
      if is_space c then
        if in_run then replaceSpaceRuns true rest
        else String "-" (replaceSpaceRuns true rest)
      else String c (replaceSpaceRuns false rest)
  end.

Fixpoint trimStart (s : string) : string :=
  match s with
  | EmptyString => EmptyString
  | String c rest => if is_space c then trimStart rest else s
  end.

Fixpoint trimEnd (s : string) : string :=
  match s with
  | EmptyString => EmptyString
  | String c rest =>
      match trimEnd rest with
      | EmptyString => if is_space c then EmptyString else String c EmptyString
      | kept => String c kept
      end
  end.

Definition trim (s : string) : string := trimEnd (trimStart s).

(** The link [handleDownload] makes, clicks and removes. *)
Record Link : Type := { href : string; download : string }.

Definition handleDownload (metadata : ConstellationMetadata) (imageBase64 : string)
  : Link :=
  {| href := "data:image/jpeg;base64," ++ imageBase64;
     download := "celestial-spark-"
                 ++ toLowerCase (replaceSpaceRuns false (name metadata)) ++ ".jpg" |}.

(** [handleEditSubmit]: the instruction handed to [onEdit], if any, and the
    text left in the input. *)
Definition handleEditSubmit (editPrompt : string) : option string * string :=
  if truthy (trim editPrompt) then (Some editPrompt, "") else (None, editPrompt).

(** The edit button is disabled while editing and for a blank instruction. *)
Definition edit_disabled (isEditing : bool) (editPrompt : string) : bool :=
  isEditing || negb (truthy (trim editPrompt)).

End SparkCard.

(** ** [App.tsx]: what is on screen

    The overlay of [App] renders four blocks, each under its own condition
    on the state. *)

Module AppView.

Import App.

Inductive Panel : Type :=
| IntroPanel
| SelectingHint (more : Z)
| Loading (caption : string)
| Card (asset : GeneratedAsset) (isEditing : bool).

Definition visible (s : State) : list Panel :=
  (match phase s with INTRO => [IntroPanel] | _ => [] end)
  ++ (match phase s with SELECTING => [SelectingHint (Journey.remaining s)] | _ => [] end)
  ++ (match phase s with
      | GENERATING_METADATA => [Loading "Consulting the Heavens..."]
      | GENERATING_IMAGE => [Loading "Weaving Starlight..."]
      | _ => []
      end)
  ++ (match surfaced s with
      | Some asset =>
          [Card asset (match phase s with EDITING => true | _ => false end)]
      | None => []
      end).

End AppView.

(** ** Vocabulary of the statements *)

(** The real a finite number stands for. *)
Definition toR (a : number) : R :=
  match a with Fin r => r | _ => 0%R end.

Definition finite_point (p : Point) : Prop :=
  is_finite (x p) = true /\ is_finite (y p) = true.

Definition realPoint (q : R * R) : Point := {| x := Fin (fst q); y := Fin (snd q) |}.

(** The target region of the sketch frame: 60% of its width and 40% of its
    height around [(768 / 2, 1024 * 0.35)]. *)
Definition in_target_region (q : number * number) : Prop :=
  exists a b : R,
    q = (Fin a, Fin b) /\
    (768 / 2 - 768 * 0.6 / 2 <= a <= 768 / 2 + 768 * 0.6 / 2)%R /\
    (1024 * 0.35 - 1024 * 0.4 / 2 <= b <= 1024 * 0.35 + 1024 * 0.4 / 2)%R.

(** A point moved by [(-bx, -by)], scaled by the one factor [scale] on both
    axes, and moved to the centre of the target region. *)
Definition placed (scale bx by_ : R) (p : Point) : number * number :=
  (Fin (768 / 2 + (toR (x p) - bx) * scale),
   Fin (1024 * 0.35 + (toR (y p) - by_) * scale)).

(** The scale factor on finite extents. *)
Definition scaleR (w h : R) : R :=
  Rmin (if Rlt_dec 0 w then 768 * 0.6 / w else 1)
       (if Rlt_dec 0 h then 1024 * 0.4 / h else 1).

(** The polyline through a list of positions, in order. *)
Definition polyline (pts : list (number * number)) : list PathCmd :=
  match pts with
  | [] => []
  | q :: rest => MoveTo (fst q) (snd q) :: map (fun r => LineTo (fst r) (snd r)) rest
  end.

(** A sketch with marks: the black background, the white polyline through
    [pts], then one white disc of radius 20 on each of them. *)
Definition sketch_of (pts : list (number * number)) : SketchData :=
  PngOf (Fin 768) (Fin 1024)
    (FillRect "#000000" (Fin 0) (Fin 0) (Fin 768) (Fin 1024)
     :: Stroke "#ffffff" (Fin 15) "round" "round" (polyline pts)
     :: map (fun q => Fill "#ffffff"
                        [Arc (fst q) (snd q) (Fin 20) (Fin 0) (Fin (PI * 2))]) pts).

(** A browser host: there is a document and canvases give a 2D context. *)
Definition in_browser (h : Host) : Prop :=
  has_document h = true /\ has_context2d h = true.

(** The normalization as the specification words it:
    [round(raw / dimension * 100)]. *)
Definition percent_of (raw dimension : number) : number :=
  Math_round (mul (div raw dimension) (Fin 100)).

(** [n] is the integer nearest to [u], halves going up. *)
Definition nearest_integer (u : R) (n : Z) : Prop :=
  (IZR n - / 2 <= u < IZR n + / 2)%R.

(** The Euclidean distance of a finite star to [(px, py)]. *)
Definition distance (px py : R) (s : Star) : R :=
  sqrt ((toR (x s) - px) ^ 2 + (toR (y s) - py) ^ 2).

(** The pointer event and the canvas rectangle hold finite numbers; then
    [(pointer_x, pointer_y)] is the pointer position relative to the canvas. *)
Definition finite_pointer (e : StarCanvas.PointerEvent) (rect : StarCanvas.DOMRect)
  : Prop :=
  is_finite (StarCanvas.clientX e) = true /\ is_finite (StarCanvas.clientY e) = true /\
  is_finite (StarCanvas.left rect) = true /\ is_finite (StarCanvas.top rect) = true.

Definition pointer_x (e : StarCanvas.PointerEvent) (rect : StarCanvas.DOMRect) : R :=
  (toR (StarCanvas.clientX e) - toR (StarCanvas.left rect))%R.

Definition pointer_y (e : StarCanvas.PointerEvent) (rect : StarCanvas.DOMRect) : R :=
  (toR (StarCanvas.clientY e) - toR (StarCanvas.top rect))%R.

(** [s] is the first star of [field] at the least distance from [(px, py)]. *)
Definition first_nearest (px py : R) (field : list Star) (s : Star) : Prop :=
  exists before after : list Star,
    field = before ++ s :: after /\
    (forall s', In s' before -> distance px py s < distance px py s')%R /\
    (forall s', In s' after -> distance px py s <= distance px py s')%R.

(** What holds of a canvas and the timers it has set so far: no timer while
    the animating flag is down; once it is up, one timer of 1500 ms holding
    the five chosen stars. *)
Definition timer_invariant (st : StarCanvas.State) (ts : list (Z * list Star)) : Prop :=
  (List.length (StarCanvas.selectedStars st) <= 5)%nat /\
  ((StarCanvas.isAnimatingConnection st = false /\ ts = []) \/
   (StarCanvas.isAnimatingConnection st = true /\
    List.length (StarCanvas.selectedStars st) = 5%nat /\
    ts = [(1500%Z, StarCanvas.selectedStars st)])).

(** *** Sample data *)

(** A browser whose generation service is unreachable. *)
Definition offline_browser : Host :=
  {| generateContent := fun _ => Rejected (ApiFailure "offline");
     JSON_parse := fun _ => None;
     has_document := true;
     has_context2d := true;
     innerWidth := Fin 1280;
     innerHeight := Fin 720 |}.

(** A star at [(10, 10)] with the given id. *)
Definition star_at_10_10 (i : Z) : Star :=
  {| star_point := realPoint (10%R, 10%R); id := i; size := Fin 2; alpha := Fin 0.5;
     isSelected := false |}.

Definition origin_rect : StarCanvas.DOMRect :=
  {| StarCanvas.left := Fin 0; StarCanvas.top := Fin 0 |}.

Definition tap_at_10_10 : StarCanvas.PointerEvent :=
  {| StarCanvas.clientX := Fin 10; StarCanvas.clientY := Fin 10 |}.

(** A canvas on which the one star of the field was already chosen twice. *)
Definition chosen_twice : StarCanvas.State :=
  {| StarCanvas.stars := [star_at_10_10 0];
     StarCanvas.selectedStars := [star_at_10_10 0; star_at_10_10 0];
     StarCanvas.isAnimatingConnection := false |}.

(** A field of one star, then five presses on it. *)
Definition five_taps (i : Z) : list StarCanvas.Event :=
  StarCanvas.StarsInitialized [star_at_10_10 i]
  :: repeat (StarCanvas.PointerDown true (Some origin_rect) tap_at_10_10) 5.

Definition sample_metadata : ConstellationMetadata :=
  {| name := "The Crown"; horoscope := "A bright year."; visualPrompt := "A crown of stars." |}.

Definition text_response (t : string) : GenerateContentResponse :=
  {| text := Some t; candidates := None |}.

Definition image_response (d : string) : GenerateContentResponse :=
  {| text := None;
     candidates :=
       Some [ {| content :=
                   Some {| parts :=
                             Some [ {| part_text := None;
                                       inlineData :=
                                         Some {| mimeType := Some "image/png";
                                                 data := Some d |} |} ] |} |} ] |}.

(** A browser whose service answers the metadata request and fails every
    image request. *)
Definition image_fails : Host :=
  {| generateContent := fun req =>
       match req with
       | MetadataRequest _ => Fulfilled (text_response "{}")
       | _ => Rejected (ApiFailure "image service down")
       end;
     JSON_parse := fun _ => Some sample_metadata;
     has_document := true;
     has_context2d := true;
     innerWidth := Fin 1280;
     innerHeight := Fin 720 |}.

(** A browser whose service fails the metadata request and answers every
    image request. *)
Definition metadata_fails : Host :=
  {| generateContent := fun req =>
       match req with
       | MetadataRequest _ => Rejected (ApiFailure "text service down")
       | _ => Fulfilled (image_response "aW1hZ2U=")
       end;
     JSON_parse := fun _ => Some sample_metadata;
     has_document := true;
     has_context2d := true;
     innerWidth := Fin 1280;
     innerHeight := Fin 720 |}.

(** The application showing a result. *)
Definition showing_result : App.State :=
  {| App.phase := RESULT; App.selectedStars := [];
     App.starCount := 5; App.constellationData := Some sample_metadata;
     App.generatedImage := Some "aW1hZ2U="; App.canvasKey := 1 |}.

Definition two_points : list Point :=
  [realPoint (0%R, 0%R); realPoint (100%R, 50%R)].

(** *** Moving and resizing a selection *)

(** The point moved by [(dx, dy)]. *)
Definition shifted (dx dy : R) (p : Point) : Point :=
  {| x := add (x p) (Fin dx); y := add (y p) (Fin dy) |}.

(** The point with both coordinates multiplied by [k]. *)
Definition resized (k : R) (p : Point) : Point :=
  {| x := mul (Fin k) (x p); y := mul (Fin k) (y p) |}.

(** Two of the points differ in [x] (in [y]): the bounding box has a
    positive width (height). *)
Definition spread_x (stars : list Point) : Prop :=
  exists p q, In p stars /\ In q stars /\ (toR (x p) < toR (x q))%R.

Definition spread_y (stars : list Point) : Prop :=
  exists p q, In p stars /\ In q stars /\ (toR (y p) < toR (y q))%R.

(** All the points have the same [x] (the same [y]). *)
Definition same_x (stars : list Point) : Prop :=
  forall p q, In p stars -> In q stars -> toR (x p) = toR (x q).

Definition same_y (stars : list Point) : Prop :=
  forall p q, In p stars -> In q stars -> toR (y p) = toR (y q).

(** Two points on one vertical line. *)
Definition vertical_pair : list Point :=
  [realPoint (5%R, 0%R); realPoint (5%R, 10%R)].

(** The progress counts among the effects of the canvas, in order. *)
Definition reports (out : list StarCanvas.Effect) : list nat :=
  flat_map (fun o => match o with
                     | StarCanvas.Progress n => [n]
                     | StarCanvas.SetTimeout _ _ => []
                     end) out.

(** The phases in which no handler is running. *)
Definition at_rest (p : AppPhase) : Prop := p = INTRO \/ p = SELECTING \/ p = RESULT.

(** What every state an [App] commits satisfies. *)
Definition app_invariant (s : App.State) : Prop :=
  App.phase s <> CONNECTING /\
  (forall img, App.generatedImage s = Some img ->
     truthy img = true /\ App.constellationData s <> None) /\
  (App.phase s = RESULT \/ App.phase s = EDITING -> App.generatedImage s <> None).

(** [d] is the data of the first part of the first candidate of [response]
    that carries non-empty inline data. *)
Definition first_image (response : GenerateContentResponse) (d : string) : Prop :=
  exists first rest c before part after inline,
    candidates response = Some (first :: rest) /\
    content first = Some c /\
    parts c = Some (before ++ part :: after) /\
    Forall (fun p => GeminiService.has_image_data p = false) before /\
    inlineData part = Some inline /\
    data inline = Some d /\
    d <> "".

(** The fields [initStars] stored during a sequence of events. *)
Definition fields_of (evs : list StarCanvas.Event) : list (list Star) :=
  flat_map (fun ev => match ev with
                      | StarCanvas.StarsInitialized field => [field]
                      | _ => []
                      end) evs.

(** Every number [Math.random] returns is a real in [[0, 1)]. *)
Definition unit_draws (rand : nat -> number) : Prop :=
  forall k, exists r : R, rand k = Fin r /\ (0 <= r < 1)%R.

(** A star as [initStars] makes them for a field [W] wide and [H] high. *)
Definition star_in_field (W H : R) (s : Star) : Prop :=
  exists a b sz al : R,
    x s = Fin a /\ y s = Fin b /\ size s = Fin sz /\ alpha s = Fin al /\
    (0 <= a <= W)%R /\ (0 < W -> a < W)%R /\
    (0 <= b <= H)%R /\ (0 < H -> b < H)%R /\
    (1 <= sz < 3)%R /\ (0.3 <= al < 0.8)%R /\
    isSelected s = false.

(** The draws that are all one half. *)
Definition halves : nat -> number := fun _ => Fin 0.5.

Definition small_canvas : StarField.CanvasElement :=
  {| StarField.width := Fin 300; StarField.height := Fin 150;
     StarField.bounds_width := Fin 1280; StarField.bounds_height := Fin 720 |}.

(** The segments joining each chosen star to the next one. *)
Fixpoint segments (selected : list Star) : list PathCmd :=
  match selected with
  | a :: (b :: _) as rest => MoveTo (x a) (y a) :: LineTo (x b) (y b) :: segments rest
  | _ => []
  end.

(** The id of [star] is the id of a chosen star. *)
Definition chosen_id (selected : list Star) (star : Star) : Prop :=
  exists s, In s selected /\ id s = id star.

(** The number put into the white of a star that is not chosen, when [k]
    numbers were drawn before. *)
Definition twinkle_alpha (rand : nat -> number) (k : nat) (star : Star) : number :=
  Math_max (Fin 0)
    (Math_min (Fin 1)
       (add (alpha star)
            (if gt (rand (S k)) (Fin 0.9) then mul (rand k) (Fin 0.2) else Fin 0))).

(** The disc of a chosen star: gold, glowing, two and a half times its size. *)
Definition gold_disc (star : Star) : RenderLoop.Mark :=
  RenderLoop.Filled (RenderLoop.Css "rgba(255, 215, 0, 1)") (Fin 15) "#FFD700"
    [Arc (x star) (y star) (mul (size star) (Fin 2.5)) (Fin 0) (Fin (PI * 2))].

(** The disc of another star: white with the given alpha, no glow, its size. *)
Definition white_disc (star : Star) (a : number) (shadow : string) : RenderLoop.Mark :=
  RenderLoop.Filled (RenderLoop.WhiteAlpha a) (Fin 0) shadow
    [Arc (x star) (y star) (size star) (Fin 0) (Fin (PI * 2))].

(** [m] is how a frame draws [star]. *)
Definition drawn_as (selected : list Star) (rand : nat -> number) (star : Star)
  (m : RenderLoop.Mark) : Prop :=
  (chosen_id selected star /\ m = gold_disc star) \/
  (~ chosen_id selected star /\
   exists k shadow, m = white_disc star (twinkle_alpha rand k star) shadow).

(** The lines of a frame: one stroke through the segments when two stars or
    more are chosen. *)
Definition line_marks (selected : list Star) (blur : number) (shadow : string)
  : list RenderLoop.Mark :=
  if (2 <=? List.length selected)%nat
  then [RenderLoop.Stroked "rgba(255, 215, 0, 0.6)" (Fin 2) blur shadow (segments selected)]
  else [].

(** A context as the browser hands it out. *)
Definition fresh_star_context : RenderLoop.Context :=
  {| RenderLoop.fillStyle := RenderLoop.Css "#000000";
     RenderLoop.strokeStyle := "#000000";
     RenderLoop.lineWidth := Fin 1;
     RenderLoop.shadowBlur := Fin 0;
     RenderLoop.shadowColor := "rgba(0, 0, 0, 0)";
     RenderLoop.path := [];
     RenderLoop.marks := [] |}.

(** Every character of the string satisfies the test. *)
Fixpoint all_chars (test : Ascii.ascii -> bool) (s : string) : bool :=
  match s with
  | EmptyString => true
  | String c rest => test c && all_chars test rest
  end.

(** The string holds ASCII characters only. *)
Definition ascii_only (s : string) : Prop :=
  all_chars (fun c => (Ascii.nat_of_ascii c <? 128)%nat) s = true.

(** Neither white space nor an upper-case letter. *)
Definition plain_char (c : Ascii.ascii) : bool :=
  negb (SparkCard.is_space c) && negb (SparkCard.is_upper c).

(** A card whose constellation has the given name. *)
Definition named (n : string) : ConstellationMetadata :=
  {| name := n; horoscope := "A bright year."; visualPrompt := "A crown of stars." |}.

(** The number of journeys started in a sequence of handlers. *)
Definition starts (evs : list (Host * Journey.Event)) : nat :=
  List.length (filter (fun hev => match snd hev with Journey.Start => true | _ => false end) evs).

(** A whole number between 0 and 100. *)
Definition percent (a : number) : Prop :=
  exists n : Z, a = Fin (IZR n) /\ (0 <= n <= 100)%Z.

(** ** Finite arithmetic *)

Section FiniteArithmetic.

Local Open Scope R_scope.

Lemma lt_Fin (a b : R) : lt (Fin a) (Fin b) = if Rlt_dec a b then true else false.
Proof. reflexivity. Qed.

Lemma lt_Fin_true (a b : R) : a < b -> lt (Fin a) (Fin b) = true.
Proof. intros H. rewrite lt_Fin. destruct (Rlt_dec a b); [reflexivity | contradiction]. Qed.

Lemma lt_Fin_false (a b : R) : b <= a -> lt (Fin a) (Fin b) = false.
Proof. intros H. rewrite lt_Fin. destruct (Rlt_dec a b); [lra | reflexivity]. Qed.

Lemma Math_min_Fin (a b : R) : Math_min (Fin a) (Fin b) = Fin (Rmin a b).
Proof.
  unfold Math_min, Rmin. cbn [is_nan orb]. rewrite lt_Fin.
  destruct (Rlt_dec b a), (Rle_dec a b); try reflexivity; f_equal; lra.
Qed.

Lemma Math_max_Fin (a b : R) : Math_max (Fin a) (Fin b) = Fin (Rmax a b).
Proof.
  unfold Math_max, Rmax. cbn [is_nan orb]. rewrite lt_Fin.
  destruct (Rlt_dec a b), (Rle_dec a b); try reflexivity; f_equal; lra.
Qed.

Lemma div_Fin (a b : R) : b <> 0 -> div (Fin a) (Fin b) = Fin (a / b).
Proof. intros H. cbn [div]. destruct (Req_dec_T b 0); [contradiction | reflexivity]. Qed.

Lemma finite_is_Fin (a : number) : is_finite a = true -> a = Fin (toR a).
Proof. destruct a; cbn; intros H; (reflexivity || discriminate). Qed.

Lemma finite_points_real (l : list Point) :
  Forall finite_point l -> exists rs : list (R * R), l = map realPoint rs.
Proof.
  induction 1 as [| p l [Hx Hy] _ [rs ->]].
  - exists []. reflexivity.
  - exists ((toR (x p), toR (y p)) :: rs). cbn [map]. f_equal.
    destruct p as [px py]; cbn in *.
    rewrite (finite_is_Fin px Hx), (finite_is_Fin py Hy). reflexivity.
Qed.

End FiniteArithmetic.

(** Rewriting operations on finite numbers to operations on reals. *)
Create Rewrite HintDb finite.
#[export] Hint Rewrite lt_Fin Math_min_Fin Math_max_Fin : finite.

(** ** The geometry of the sketch *)

Section SketchGeometry.

Import GeminiService.
Local Open Scope R_scope.

Lemma fold_Rmin_le (l : list R) : forall a, fold_left Rmin l a <= a.
Proof.
  induction l as [| v l IH]; intros a; cbn [fold_left].
  - lra.
  - specialize (IH (Rmin a v)). pose proof (Rmin_l a v). lra.
Qed.

Lemma fold_Rmin_lower (l : list R) :
  forall a v, In v l -> fold_left Rmin l a <= v.
Proof.
  induction l as [| u l IH]; intros a v Hin; cbn [fold_left]; [destruct Hin |].
  destruct Hin as [-> | Hin].
  - pose proof (fold_Rmin_le l (Rmin a v)). pose proof (Rmin_r a v). lra.
  - apply IH, Hin.
Qed.

Lemma fold_Rmax_ge (l : list R) : forall a, a <= fold_left Rmax l a.
Proof.
  induction l as [| v l IH]; intros a; cbn [fold_left].
  - lra.
  - specialize (IH (Rmax a v)). pose proof (Rmax_l a v). lra.
Qed.

Lemma fold_Rmax_upper (l : list R) :
  forall a v, In v l -> v <= fold_left Rmax l a.
Proof.
  induction l as [| u l IH]; intros a v Hin; cbn [fold_left]; [destruct Hin |].
  destruct Hin as [-> | Hin].
  - pose proof (fold_Rmax_ge l (Rmax a v)). pose proof (Rmax_r a v). lra.
  - apply IH, Hin.
Qed.

Lemma bbox_scan (rs : list (R * R)) :
  forall i a1 a2 a3 a4,
    forEach_from i
      (fun (p : Point) (_ : nat) '(minX, maxX, minY, maxY) =>
         (Math_min minX (x p), Math_max maxX (x p),
          Math_min minY (y p), Math_max maxY (y p)))
      (map realPoint rs) (Fin a1, Fin a2, Fin a3, Fin a4)
    = (Fin (fold_left Rmin (map fst rs) a1), Fin (fold_left Rmax (map fst rs) a2),
       Fin (fold_left Rmin (map snd rs) a3), Fin (fold_left Rmax (map snd rs) a4)).
Proof.
  induction rs as [| q rs IH]; intros i a1 a2 a3 a4; cbn [map forEach_from fold_left].
  - reflexivity.
  - cbn [realPoint x y]. autorewrite with finite. apply IH.
Qed.

Lemma boundingBox_real (q : R * R) (rs : list (R * R)) :
  boundingBox (map realPoint (q :: rs))
  = (Fin (fold_left Rmin (map fst rs) (fst q)), Fin (fold_left Rmax (map fst rs) (fst q)),
     Fin (fold_left Rmin (map snd rs) (snd q)), Fin (fold_left Rmax (map snd rs) (snd q))).
Proof.
  unfold boundingBox, forEach. cbn [map forEach_from realPoint x y].
  replace (Math_min PosInf (Fin (fst q))) with (Fin (fst q)) by reflexivity.
  replace (Math_max NegInf (Fin (fst q))) with (Fin (fst q)) by reflexivity.
  replace (Math_min PosInf (Fin (snd q))) with (Fin (snd q)) by reflexivity.
  replace (Math_max NegInf (Fin (snd q))) with (Fin (snd q)) by reflexivity.
  apply bbox_scan.
Qed.

Lemma scaleOf_Fin (w h : R) : scaleOf (Fin w) (Fin h) = Fin (scaleR w h).
Proof.
  unfold scaleOf, scaleX, scaleY, scaleR, gt, targetW, targetH, canvas_width,
    canvas_height.
  autorewrite with finite. cbn [mul].
  destruct (Rlt_dec 0 w), (Rlt_dec 0 h);
    rewrite ?div_Fin by lra; apply Math_min_Fin.
Qed.

Lemma scaleR_pos (w h : R) : 0 < scaleR w h.
Proof.
  unfold scaleR.
  assert (Hw : 0 < (if Rlt_dec 0 w then 768 * 0.6 / w else 1)).
  { destruct (Rlt_dec 0 w); [| lra]. apply Rdiv_lt_0_compat; lra. }
  assert (Hh : 0 < (if Rlt_dec 0 h then 1024 * 0.4 / h else 1)).
  { destruct (Rlt_dec 0 h); [| lra]. apply Rdiv_lt_0_compat; lra. }
  apply Rmin_glb_lt; assumption.
Qed.

Lemma scaleR_width (w h : R) : 0 <= w -> w * scaleR w h <= 768 * 0.6.
Proof.
  intros Hw. unfold scaleR. destruct (Rlt_dec 0 w) as [Hpos | Hz].
  - set (sy := if Rlt_dec 0 h then _ else _).
    pose proof (Rmin_l (768 * 0.6 / w) sy) as Hl.
    apply (Rmult_le_compat_l w) in Hl; [| lra].
    replace (w * (768 * 0.6 / w)) with (768 * 0.6) in Hl by (field; lra). exact Hl.
  - replace w with 0 by lra. lra.
Qed.

Lemma scaleR_height (w h : R) : 0 <= h -> h * scaleR w h <= 1024 * 0.4.
Proof.
  intros Hh. unfold scaleR. destruct (Rlt_dec 0 h) as [Hpos | Hz].
  - set (sx := if Rlt_dec 0 w then _ else _).
    pose proof (Rmin_r sx (1024 * 0.4 / h)) as Hl.
    apply (Rmult_le_compat_l h) in Hl; [| lra].
    replace (h * (1024 * 0.4 / h)) with (1024 * 0.4) in Hl by (field; lra). exact Hl.
  - replace h with 0 by lra. lra.
Qed.

Lemma drawX_Fin (mn w s : R) (q : R * R) :
  drawX (Fin mn) (Fin w) (Fin s) (realPoint q)
  = Fin (768 / 2 + (fst q - (mn + w / 2)) * s).
Proof.
  unfold drawX, targetCenterX, canvas_width. cbn [realPoint x].
  rewrite !div_Fin by lra. reflexivity.
Qed.

Lemma drawY_Fin (mn w s : R) (q : R * R) :
  drawY (Fin mn) (Fin w) (Fin s) (realPoint q)
  = Fin (1024 * 0.35 + (snd q - (mn + w / 2)) * s).
Proof.
  unfold drawY, targetCenterY, canvas_height. cbn [realPoint y].
  rewrite !div_Fin by lra. reflexivity.
Qed.

(** The line loop after its first point only appends [lineTo]s to the path. *)
Lemma line_loop (fx fy : Point -> number) (l : list Point) :
  forall i c,
    forEach_from (S i)
      (fun p j c0 =>
         if (j =? 0)%nat then moveTo (fx p) (fy p) c0 else lineTo (fx p) (fy p) c0) l c
    = set_path (path c ++ map (fun p => LineTo (fx p) (fy p)) l) c.
Proof.
  induction l as [| p l IH]; intros i c; cbn [forEach_from map].
  - destruct c; unfold set_path; cbn. rewrite app_nil_r. reflexivity.
  - rewrite IH. cbn [Nat.eqb]. unfold lineTo, set_path; cbn.
    rewrite <- app_assoc. reflexivity.
Qed.

(** The node loop paints one disc per point and leaves the fill style. *)
Lemma node_loop (fx fy : Point -> number) (l : list Point) :
  forall i c,
    painted
      (forEach_from i
         (fun p (_ : nat) c0 =>
            fill (arc (fx p) (fy p) (Fin 20) (Fin 0) (mul Math_PI (Fin 2))
                      (beginPath c0))) l c)
    = painted c ++ map (fun p => Fill (fillStyle c)
                                   [Arc (fx p) (fy p) (Fin 20) (Fin 0) (Fin (PI * 2))]) l.
Proof.
  induction l as [| p l IH]; intros i c; cbn [forEach_from map].
  - rewrite app_nil_r. reflexivity.
  - rewrite IH. cbn. rewrite <- app_assoc. reflexivity.
Qed.

Lemma placed_in_region (mn mx v t c s : R) :
  mn <= v <= mx -> 0 < s -> (mx - mn) * s <= t ->
  c - t / 2 <= c + (v - (mn + (mx - mn) / 2)) * s <= c + t / 2.
Proof. intros Hv Hs Ht. split; nra. Qed.

Lemma fold_Rmin_repeat (a : R) (n : nat) : fold_left Rmin (repeat a n) a = a.
Proof.
  induction n as [| n IH]; cbn [repeat fold_left]; [reflexivity |].
  rewrite Rmin_left by lra. exact IH.
Qed.

Lemma fold_Rmax_repeat (a : R) (n : nat) : fold_left Rmax (repeat a n) a = a.
Proof.
  induction n as [| n IH]; cbn [repeat fold_left]; [reflexivity |].
  rewrite Rmax_left by lra. exact IH.
Qed.

Lemma map_repeat_const {A B : Type} (f : A -> B) (a : A) (n : nat) :
  map f (repeat a n) = repeat (f a) n.
Proof. induction n as [| n IH]; cbn; [reflexivity | f_equal; exact IH]. Qed.

Section InBrowser.

Variable h : Host.
Hypothesis browser : in_browser h.

(** The sketch of a non-empty list of finite points, in closed form. *)
Lemma sketch_real (q : R * R) (rs : list (R * R)) :
  let mnx := fold_left Rmin (map fst rs) (fst q) in
  let mxx := fold_left Rmax (map fst rs) (fst q) in
  let mny := fold_left Rmin (map snd rs) (snd q) in
  let mxy := fold_left Rmax (map snd rs) (snd q) in
  let s := scaleR (mxx - mnx) (mxy - mny) in
  createConstellationSketch h (map realPoint (q :: rs))
  = sketch_of (map (placed s (mnx + (mxx - mnx) / 2) (mny + (mxy - mny) / 2))
                   (map realPoint (q :: rs))).
Proof.
  intros mnx mxx mny mxy s. destruct browser as [Hdoc Hctx].
  unfold createConstellationSketch. rewrite Hdoc, Hctx. cbn [negb].
  rewrite boundingBox_real. fold mnx mxx mny mxy.
  cbn [List.length map Nat.eqb sub]. rewrite scaleOf_Fin. fold s.
  unfold forEach. cbn [forEach_from map Nat.eqb].
  rewrite (node_loop (drawX (Fin mnx) (Fin (mxx - mnx)) (Fin s))
                     (drawY (Fin mny) (Fin (mxy - mny)) (Fin s))).
  rewrite (line_loop (drawX (Fin mnx) (Fin (mxx - mnx)) (Fin s))
                     (drawY (Fin mny) (Fin (mxy - mny)) (Fin s))).
  unfold sketch_of, canvas_width, canvas_height.
  cbn [painted path fillStyle strokeStyle lineWidth lineCap lineJoin
       set_fillStyle set_strokeStyle set_lineWidth set_lineCap set_lineJoin
       set_path paint fillRect beginPath moveTo stroke fill arc fresh_context app
       polyline map fst snd].
  rewrite !drawX_Fin, !drawY_Fin. unfold placed at 1 2 3 4. cbn [realPoint x y toR].
  rewrite !map_map.
  do 3 f_equal.
  - f_equal. f_equal. apply map_ext. intros r.
    rewrite drawX_Fin, drawY_Fin. reflexivity.
  - f_equal. apply map_ext. intros r.
    rewrite drawX_Fin, drawY_Fin. reflexivity.
Qed.

(** The sketch of finite points is drawn through their placed images, which
    lie in the target region. *)
Lemma sketch_placed_in_region (stars : list Point) :
  stars <> [] -> Forall finite_point stars ->
  exists scale bx by_ : R,
    0 < scale /\
    createConstellationSketch h stars = sketch_of (map (placed scale bx by_) stars) /\
    Forall in_target_region (map (placed scale bx by_) stars).
Proof.
  intros Hne Hfin.
  destruct (finite_points_real stars Hfin) as [rs ->].
  destruct rs as [| q rs]; [contradiction Hne; reflexivity |].
  set (mnx := fold_left Rmin (map fst rs) (fst q)).
  set (mxx := fold_left Rmax (map fst rs) (fst q)).
  set (mny := fold_left Rmin (map snd rs) (snd q)).
  set (mxy := fold_left Rmax (map snd rs) (snd q)).
  exists (scaleR (mxx - mnx) (mxy - mny)),
         (mnx + (mxx - mnx) / 2), (mny + (mxy - mny) / 2).
  assert (Hx : forall r, In r (q :: rs) -> mnx <= fst r <= mxx).
  { intros r [<- | Hin].
    - split; [apply fold_Rmin_le | apply fold_Rmax_ge].
    - split; [apply fold_Rmin_lower | apply fold_Rmax_upper];
        apply in_map, Hin. }
  assert (Hy : forall r, In r (q :: rs) -> mny <= snd r <= mxy).
  { intros r [<- | Hin].
    - split; [apply fold_Rmin_le | apply fold_Rmax_ge].
    - split; [apply fold_Rmin_lower | apply fold_Rmax_upper];
        apply in_map, Hin. }
  pose proof (scaleR_pos (mxx - mnx) (mxy - mny)) as Hs.
  split; [exact Hs |]. split; [apply (sketch_real q rs) |].
  rewrite map_map. apply Forall_map, Forall_forall. intros r Hr.
  specialize (Hx q (or_introl eq_refl)) as Hqx.
  specialize (Hy q (or_introl eq_refl)) as Hqy.
  exists (768 / 2 + (fst r - (mnx + (mxx - mnx) / 2)) * scaleR (mxx - mnx) (mxy - mny)),
         (1024 * 0.35 + (snd r - (mny + (mxy - mny) / 2)) * scaleR (mxx - mnx) (mxy - mny)).
  split; [reflexivity |]. split.
  - apply placed_in_region; [apply Hx, Hr | exact Hs | apply scaleR_width; lra].
  - apply placed_in_region; [apply Hy, Hr | exact Hs | apply scaleR_height; lra].
Qed.


(** Coincident points, however many, are all drawn at the centre of the
    target region. *)
Lemma sketch_coincident (a b : R) (n : nat) :
  createConstellationSketch h (repeat (realPoint (a, b)) (S n))
  = sketch_of (repeat (Fin (768 / 2), Fin (1024 * 0.35)) (S n)).
Proof.
  rewrite <- (map_repeat_const realPoint (a, b) (S n)).
  cbn [repeat]. rewrite (sketch_real (a, b) (repeat (a, b) n)).
  rewrite !map_repeat_const. cbn [fst snd].
  rewrite !fold_Rmin_repeat, !fold_Rmax_repeat.
  f_equal. rewrite map_map.
  change ((a, b) :: repeat (a, b) n) with (repeat (a, b) (S n)).
  rewrite map_repeat_const.
  replace (placed _ _ _ (realPoint (a, b))) with (Fin (768 / 2), Fin (1024 * 0.35));
    [reflexivity |].
  unfold placed. cbn [realPoint x y toR fst snd]. f_equal; f_equal; field.
Qed.


(** C9.  In a browser the sketch of no points is the blank frame: the black
    background rectangle and no other mark (no polyline, no node). *)
Theorem C9_empty_sketch_is_blank :
  createConstellationSketch h []
  = PngOf (Fin 768) (Fin 1024)
      [FillRect "#000000" (Fin 0) (Fin 0) (Fin 768) (Fin 1024)].
Proof.
  destruct browser as [Hdoc Hctx]. unfold createConstellationSketch.
  rewrite Hdoc, Hctx. reflexivity.
Qed.

End InBrowser.



Lemma C9_empty_sketch_is_blank_witness :
  createConstellationSketch offline_browser []
  = PngOf (Fin 768) (Fin 1024)
      [FillRect "#000000" (Fin 0) (Fin 0) (Fin 768) (Fin 1024)].
Proof. apply (C9_empty_sketch_is_blank offline_browser). split; reflexivity. Defined.

End SketchGeometry.

(** ** Normalization of the selection for the metadata request *)

Section Normalization.

Import GeminiService.
Local Open Scope R_scope.

Lemma percent_of_Fin (raw dim : R) :
  dim <> 0 ->
  percent_of (Fin raw) (Fin dim) = Fin (IZR (Zfloor (raw / dim * 100 + / 2))).
Proof. intros Hd. unfold percent_of. rewrite div_Fin by exact Hd. reflexivity. Qed.

Lemma round_nearest (u : R) : nearest_integer u (Zfloor (u + / 2)).
Proof. unfold nearest_integer. pose proof (Zfloor_bound (u + / 2)). lra. Qed.

Lemma percent_range (raw dim : R) :
  0 < dim -> 0 <= raw <= dim ->
  (0 <= Zfloor (raw / dim * 100 + / 2) <= 100)%Z.
Proof.
  intros Hd [H0 H1].
  assert (Hu : 0 <= raw / dim * 100 <= 100).
  { assert (0 <= raw / dim <= 1); [| lra].
    split.
    - apply Rmult_le_pos; [lra |]. apply Rlt_le, Rinv_0_lt_compat, Hd.
    - apply (Rmult_le_reg_r dim); [exact Hd |].
      replace (raw / dim * dim) with raw by (field; lra). lra. }
  pose proof (Zfloor_bound (raw / dim * 100 + / 2)) as [Hlo Hhi].
  split.
  - apply Zfloor_lub. simpl. lra.
  - assert (Hlt : IZR (Zfloor (raw / dim * 100 + / 2)) < IZR 101) by (simpl; lra).
    apply lt_IZR in Hlt. lia.
Qed.

(** The answer of the metadata step depends on the service only through its
    answer to the request carrying the normalized stars. *)
Lemma metadata_request_normalized (h1 h2 : Host) (stars : list Point) (w ht : number) :
  (forall t, JSON_parse h1 t = JSON_parse h2 t) ->
  generateContent h1 (MetadataRequest (normalizedStars stars w ht))
  = generateContent h2 (MetadataRequest (normalizedStars stars w ht)) ->
  generateConstellationMetadata h1 stars w ht = generateConstellationMetadata h2 stars w ht.
Proof.
  intros Hparse Hreq. unfold generateConstellationMetadata. rewrite Hreq.
  destruct (generateContent h2 _) as [response | e]; cbn [bind try_catch]; [| reflexivity].
  destruct (text response) as [t |]; [| reflexivity].
  destruct (truthy t); [| reflexivity]. rewrite Hparse. reflexivity.
Qed.



End Normalization.

(** ** The selection tracker *)

Section Selection.

Import StarCanvas.
Local Open Scope R_scope.

Lemma dist_Fin (px py : R) (s : Star) :
  finite_point s -> dist (Fin px) (Fin py) s = Fin (distance px py s).
Proof.
  intros [Hx Hy]. unfold dist, distance.
  rewrite (finite_is_Fin _ Hx), (finite_is_Fin _ Hy). cbn [Math_pow sub mul add toR Math_sqrt].
  set (u := toR (x s) - px). set (v := toR (y s) - py).
  destruct (Rlt_dec (u * (u * 1) + v * (v * 1)) 0) as [Hneg | _].
  - exfalso. nra.
  - reflexivity.
Qed.

(** The scan, from any accumulator holding a finite distance. *)
Lemma closest_scan (px py : R) (field : list Star) :
  Forall (fun s : Star => finite_point s) field ->
  forall (i : nat) (best : option Star) (m : R),
    let res :=
      forEach_from i
        (fun (star : Star) (_ : nat) '(closestStar, minDist) =>
           if lt (dist (Fin px) (Fin py) star) minDist
           then (Some star, dist (Fin px) (Fin py) star)
           else (closestStar, minDist))
        field (best, Fin m) in
    (res = (best, Fin m) /\ forall s, In s field -> m <= distance px py s) \/
    (exists s, res = (Some s, Fin (distance px py s)) /\
               distance px py s < m /\ first_nearest px py field s).
Proof.
  induction 1 as [| a l Ha _ IH]; intros i best m; cbn [forEach_from].
  - left. split; [reflexivity | intros s []].
  - rewrite (dist_Fin px py a Ha), lt_Fin.
    destruct (Rlt_dec (distance px py a) m) as [Hlt | Hge].
    + destruct (IH (S i) (Some a) (distance px py a)) as [[Hres Hall] | (s & Hres & Hs & Hfirst)].
      * right. exists a. split; [exact Hres |]. split; [exact Hlt |].
        exists [], l. split; [reflexivity |]. split; [intros s' [] | exact Hall].
      * right. exists s. split; [exact Hres |]. split; [lra |].
        destruct Hfirst as (before & after & -> & Hb & Haf).
        exists (a :: before), after. split; [reflexivity |].
        split; [| exact Haf]. intros s' [<- | Hin]; [exact Hs | apply Hb, Hin].
    + destruct (IH (S i) best m) as [[Hres Hall] | (s & Hres & Hs & Hfirst)].
      * left. split; [exact Hres |]. intros s [<- | Hin]; [lra | apply Hall, Hin].
      * right. exists s. split; [exact Hres |]. split; [exact Hs |].
        destruct Hfirst as (before & after & -> & Hb & Haf).
        exists (a :: before), after. split; [reflexivity |].
        split; [| exact Haf]. intros s' [<- | Hin]; [lra | apply Hb, Hin].
Qed.

(** The closest star within the hit radius, or none. *)
Lemma closest_spec (px py : R) (field : list Star) :
  Forall (fun s : Star => finite_point s) field ->
  (fst (closest (Fin px) (Fin py) field) = None /\
   forall s, In s field -> 50 <= distance px py s) \/
  (exists s, fst (closest (Fin px) (Fin py) field) = Some s /\
             distance px py s < 50 /\ first_nearest px py field s).
Proof.
  intros Hfin. unfold closest, forEach.
  destruct (closest_scan px py field Hfin 0 None 50) as [[Hres Hall] | (s & Hres & Hs & Hfirst)];
    cbn zeta in Hres; rewrite Hres.
  - left. split; [reflexivity | exact Hall].
  - right. exists s. split; [reflexivity |]. split; assumption.
Qed.

Lemma pointer_Fin (e : PointerEvent) (rect : DOMRect) :
  finite_pointer e rect ->
  sub (clientX e) (left rect) = Fin (pointer_x e rect) /\
  sub (clientY e) (top rect) = Fin (pointer_y e rect).
Proof.
  intros (Hx & Hy & Hl & Ht). unfold pointer_x, pointer_y.
  rewrite (finite_is_Fin _ Hx), (finite_is_Fin _ Hy), (finite_is_Fin _ Hl),
    (finite_is_Fin _ Ht). split; reflexivity.
Qed.

(** What a press on an active, incomplete canvas does. *)
Lemma press_selects_nearest (e : PointerEvent) (rect : DOMRect) (st : State) :
  finite_pointer e rect ->
  Forall (fun s : Star => finite_point s) (stars st) ->
  (List.length (selectedStars st) < 5)%nat ->
  let px := pointer_x e rect in
  let py := pointer_y e rect in
  (exists s,
     first_nearest px py (stars st) s /\ distance px py s < 50 /\
     handleCanvasInteraction true (Some rect) e st
     = (setSelectedStars (selectedStars st ++ [s]) st,
        [Progress (S (List.length (selectedStars st)))])) \/
  ((forall s, In s (stars st) -> 50 <= distance px py s) /\
   handleCanvasInteraction true (Some rect) e st = (st, [])).
Proof.
  intros Hp Hfin Hlen px py. unfold handleCanvasInteraction.
  replace (5 <=? List.length (selectedStars st))%nat with false
    by (symmetry; apply Nat.leb_gt, Hlen).
  cbn [negb orb]. destruct (pointer_Fin e rect Hp) as [-> ->]. fold px py.
  destruct (closest_spec px py (stars st) Hfin) as [[-> Hall] | (s & -> & Hs & Hfirst)].
  - right. split; [exact Hall | reflexivity].
  - left. exists s. split; [exact Hfirst |]. split; [exact Hs |].
    rewrite length_app. cbn [List.length]. rewrite Nat.add_1_r. reflexivity.
Qed.



End Selection.

(** ** The selection cap and the connection timer *)

Section Connection.

Import StarCanvas.

Lemma timeouts_app (a b : list Effect) : timeouts (a ++ b) = timeouts a ++ timeouts b.
Proof. apply flat_map_app. Qed.

(** A press leaves the canvas as it is or appends one star to an incomplete
    selection; it never sets a timer. *)
Lemma press_cases (isActive : bool) (canvas : option DOMRect) (e : PointerEvent)
  (st : State) :
  handleCanvasInteraction isActive canvas e st = (st, []) \/
  exists s,
    (List.length (selectedStars st) < 5)%nat /\
    handleCanvasInteraction isActive canvas e st
    = (setSelectedStars (selectedStars st ++ [s]) st,
       [Progress (List.length (selectedStars st ++ [s]))]).
Proof.
  unfold handleCanvasInteraction.
  destruct (negb isActive); cbn [orb]; [left; reflexivity |].
  destruct (5 <=? List.length (selectedStars st))%nat eqn:Hfull; [left; reflexivity |].
  apply Nat.leb_gt in Hfull.
  destruct canvas as [rect |]; [| left; reflexivity].
  destruct (fst (closest _ _ _)) as [s |]; [| left; reflexivity].
  right. exists s. split; [exact Hfull | reflexivity].
Qed.

Lemma press_when_complete (isActive : bool) (canvas : option DOMRect)
  (e : PointerEvent) (st : State) :
  (5 <= List.length (selectedStars st))%nat ->
  handleCanvasInteraction isActive canvas e st = (st, []).
Proof.
  intros Hfull. unfold handleCanvasInteraction.
  apply Nat.leb_le in Hfull. rewrite Hfull, orb_true_r. reflexivity.
Qed.

Lemma step_invariant (ev : Event) (st : State) (ts : list (Z * list Star)) :
  timer_invariant st ts ->
  timer_invariant (fst (step ev st)) (ts ++ timeouts (snd (step ev st))).
Proof.
  intros [Hlen Hcase]. unfold timer_invariant.
  destruct ev as [isActive canvas e | | newStars]; cbn [step].
  - destruct (press_cases isActive canvas e st) as [-> | (s & Hlt & ->)]; cbn [fst snd timeouts flat_map].
    + rewrite app_nil_r. split; assumption.
    + rewrite app_nil_r. cbn [setSelectedStars selectedStars isAnimatingConnection].
      split; [rewrite length_app; cbn; lia |].
      destruct Hcase as [Hoff | (_ & Hfive & _)]; [left; exact Hoff | lia].
  - unfold connectionEffect.
    destruct (List.length (selectedStars st) =? 5)%nat eqn:Hfive;
      destruct (isAnimatingConnection st) eqn:Hanim;
      cbn [andb negb fst snd timeouts flat_map];
      rewrite ?app_nil_r; try (rewrite Hanim; split; assumption).
    apply Nat.eqb_eq in Hfive.
    destruct Hcase as [[_ ->] | (Hcontra & _)]; [| discriminate].
    cbn [setIsAnimatingConnection selectedStars isAnimatingConnection app].
    split; [exact Hlen |]. right. rewrite Hfive. repeat split; assumption.
  - cbn [fst snd timeouts flat_map setStars selectedStars isAnimatingConnection].
    rewrite app_nil_r. split; assumption.
Qed.

Lemma run_invariant (evs : list Event) :
  forall st ts,
    timer_invariant st ts ->
    timer_invariant (fst (run evs st)) (ts ++ timeouts (snd (run evs st))).
Proof.
  induction evs as [| ev evs IH]; intros st ts Hinv; cbn [run].
  - cbn. rewrite app_nil_r. exact Hinv.
  - pose proof (step_invariant ev st ts Hinv) as H1.
    destruct (step ev st) as [st1 out1]. cbn [fst snd] in H1.
    specialize (IH st1 _ H1). destruct (run evs st1) as [st2 out2].
    cbn [fst snd] in IH |- *. rewrite timeouts_app, app_assoc. exact IH.
Qed.

Lemma mounted_invariant : timer_invariant mounted [].
Proof. split; [cbn; lia | left; split; reflexivity]. Qed.

(** After a run of the effect a complete selection has the flag up. *)
Lemma effect_raises_flag (st : State) :
  List.length (selectedStars (fst (connectionEffect st))) = 5%nat ->
  isAnimatingConnection (fst (connectionEffect st)) = true.
Proof.
  unfold connectionEffect.
  destruct (List.length (selectedStars st) =? 5)%nat eqn:Hfive;
    destruct (isAnimatingConnection st) eqn:Hanim; cbn [andb negb fst];
    cbn [setIsAnimatingConnection selectedStars isAnimatingConnection];
    intros Hlen; try assumption; try reflexivity.
  apply Nat.eqb_neq in Hfive. contradiction.
Qed.

Lemma rendered_raises_flag (evs : list Event) :
  forall st,
    (List.length (selectedStars st) = 5%nat -> isAnimatingConnection st = true) ->
    List.length (selectedStars (fst (run (rendered evs) st))) = 5%nat ->
    isAnimatingConnection (fst (run (rendered evs) st)) = true.
Proof.
  induction evs as [| ev evs IH]; intros st Hst.
  - exact Hst.
  - unfold rendered. cbn [flat_map app]. fold (rendered evs). cbn [run].
    destruct (step ev st) as [st1 out1]. cbn [step].
    destruct (connectionEffect st1) as [st2 out2] eqn:E2.
    pose proof (effect_raises_flag st2) as Hflag.
    destruct (connectionEffect st2) as [st3 out3].
    cbn [fst] in Hflag. specialize (IH st3 Hflag).
    destruct (run (rendered evs) st3) as [st4 out4]. exact IH.
Qed.

(** C4.  A press on a canvas with five (or more) stars chosen changes
    nothing and reports nothing, whatever the pointer and the field; and no
    sequence of events takes a mounted canvas beyond five chosen stars. *)
Theorem C4_selection_never_exceeds_five :
  (forall isActive canvas e st,
     (5 <= List.length (selectedStars st))%nat ->
     handleCanvasInteraction isActive canvas e st = (st, [])) /\
  (forall evs, (List.length (selectedStars (fst (run evs mounted))) <= 5)%nat).
Proof.
  split.
  - intros isActive canvas e st. apply press_when_complete.
  - intros evs. exact (proj1 (run_invariant evs mounted [] mounted_invariant)).
Qed.

(** C3 (amended).  Five chosen stars give the delay 5 * 200 + 500 = 1500 ms.
    Over any sequence of events on a mounted canvas at most one timer is set,
    of 1500 ms, and what its callback hands over is the list of the five
    chosen star records themselves; the effect sets no timer while the
    animating flag is up; and under React's schedule a selection that reached
    five has set exactly one. *)
Theorem C3_connection_timer_once :
  (5 * CONNECTION_SPEED + 500 = 1500)%Z /\
  (forall evs,
     let st := fst (run evs mounted) in
     let ts := timeouts (snd (run evs mounted)) in
     ts = [] \/
     (List.length (selectedStars st) = 5%nat /\ ts = [(1500%Z, selectedStars st)])) /\
  (forall st, isAnimatingConnection st = true -> connectionEffect st = (st, [])) /\
  (forall evs,
     let st := fst (run (rendered evs) mounted) in
     List.length (selectedStars st) = 5%nat ->
     timeouts (snd (run (rendered evs) mounted)) = [(1500%Z, selectedStars st)]).
Proof.
  split; [reflexivity |]. split; [| split].
  - intros evs st ts.
    destruct (run_invariant evs mounted [] mounted_invariant) as [_ Hcase].
    cbn [app] in Hcase. fold st ts in Hcase.
    destruct Hcase as [[_ Hts] | (_ & Hfive & Hts)]; [left | right; split]; assumption.
  - intros st Hanim. unfold connectionEffect. rewrite Hanim, andb_false_r. reflexivity.
  - intros evs st Hfive.
    assert (Hflag : isAnimatingConnection st = true).
    { apply rendered_raises_flag; [cbn; discriminate | exact Hfive]. }
    destruct (run_invariant (rendered evs) mounted [] mounted_invariant) as [_ Hcase].
    cbn [app] in Hcase. fold st in Hcase.
    destruct Hcase as [[Hoff _] | (_ & _ & Hts)]; [congruence | exact Hts].
Qed.

(** One press on the star of a one-star field at [(10, 10)]. *)
Lemma tap_selects (i : Z) (sel : list Star) (flag : bool) :
  (List.length sel < 5)%nat ->
  handleCanvasInteraction true (Some origin_rect) tap_at_10_10
    {| stars := [star_at_10_10 i]; selectedStars := sel; isAnimatingConnection := flag |}
  = ({| stars := [star_at_10_10 i]; selectedStars := sel ++ [star_at_10_10 i];
        isAnimatingConnection := flag |},
     [Progress (S (List.length sel))]).
Proof.
  intros Hlen.
  set (st := {| stars := [star_at_10_10 i]; selectedStars := sel;
                isAnimatingConnection := flag |}).
  assert (Hd : distance (pointer_x tap_at_10_10 origin_rect)
                        (pointer_y tap_at_10_10 origin_rect) (star_at_10_10 i) = 0%R).
  { unfold distance, pointer_x, pointer_y. cbn.
    replace ((10 - (10 - 0)) * ((10 - (10 - 0)) * 1)
             + (10 - (10 - 0)) * ((10 - (10 - 0)) * 1))%R with 0%R by ring.
    apply sqrt_0. }
  destruct (press_selects_nearest tap_at_10_10 origin_rect st) as
    [(s & Hfirst & _ & Heq) | [Hall _]].
  - repeat split.
  - repeat constructor.
  - exact Hlen.
  - destruct Hfirst as (before & after & Hfield & _).
    assert (s = star_at_10_10 i) as ->.
    { cbn [stars st] in Hfield.
      destruct before as [| b [| b2 before]]; cbn in Hfield; inversion Hfield; subst.
      reflexivity. }
    exact Heq.
  - exfalso. specialize (Hall (star_at_10_10 i) (or_introl eq_refl)).
    rewrite Hd in Hall. lra.
Qed.

(** C3, counterexample.  The callback does not receive positions only: two
    fields with the same positions and different star ids hand over different
    arguments, each made of the chosen star records with their ids. *)
Lemma C3_callback_argument_keeps_ids :
  timeouts (snd (run (rendered (five_taps 0)) mounted))
  = [(1500%Z, repeat (star_at_10_10 0) 5)] /\
  timeouts (snd (run (rendered (five_taps 7)) mounted))
  = [(1500%Z, repeat (star_at_10_10 7) 5)] /\
  map star_point (repeat (star_at_10_10 0) 5) = map star_point (repeat (star_at_10_10 7) 5) /\
  map id (repeat (star_at_10_10 7) 5) = [7; 7; 7; 7; 7]%Z /\
  repeat (star_at_10_10 0) 5 <> repeat (star_at_10_10 7) 5.
Proof.
  assert (Hrun : forall i,
             timeouts (snd (run (rendered (five_taps i)) mounted))
             = [(1500%Z, repeat (star_at_10_10 i) 5)]).
  { intros i. unfold five_taps, rendered. cbn [repeat flat_map app].
    cbn [run step]. unfold setStars, mounted.
    cbn [stars selectedStars isAnimatingConnection].
    repeat first
      [ rewrite tap_selects by (cbn; lia)
      | progress (unfold connectionEffect, setIsAnimatingConnection)
      | progress cbn [stars selectedStars isAnimatingConnection List.length Nat.eqb
                      andb negb app] ].
    reflexivity. }
  split; [apply Hrun |]. split; [apply Hrun |].
  split; [reflexivity |]. split; [reflexivity |].
  intros Heq. inversion Heq.
Qed.

End Connection.

(** ** The metadata step and the orchestrator *)

Section Orchestration.

Import GeminiService App.

Variable h : Host.

(** The metadata step always fulfils. *)
Lemma metadata_fulfils (stars : list Point) (w ht : number) :
  exists m, generateConstellationMetadata h stars w ht = Fulfilled m.
Proof.
  unfold generateConstellationMetadata.
  destruct (bind _ _) as [m | e]; cbn [try_catch]; eexists; reflexivity.
Qed.

(** What the initial generation lets the user see, by the outcome of the
    image step. *)
Lemma generation_outcomes (chosen : list Point) (s : State) :
  exists m,
    generateConstellationMetadata h chosen (innerWidth h) (innerHeight h) = Fulfilled m /\
    let s1 := setPhase GENERATING_METADATA (setSelectedStars chosen s) in
    let s2 := setPhase GENERATING_IMAGE (setConstellationData (Some m) s1) in
    (exists img,
       generateCardImage h (visualPrompt m) chosen = Fulfilled img /\
       handleStarsSelected h chosen s
       = [Commit s1; Commit s2; Commit (setPhase RESULT (setGeneratedImage (Some img) s2))]) \/
    (exists e,
       generateCardImage h (visualPrompt m) chosen = Rejected e /\
       handleStarsSelected h chosen s
       = [Commit s1; Commit s2;
          Alert "The stars are cloudy tonight. Please try gazing again.";
          Commit (setPhase INTRO s2)]).
Proof.
  destruct (metadata_fulfils chosen (innerWidth h) (innerHeight h)) as [m Hm].
  exists m. split; [exact Hm |]. intros s1 s2.
  unfold handleStarsSelected. rewrite Hm. fold s1 s2.
  destruct (generateCardImage h (visualPrompt m) chosen) as [img | e].
  - left. exists img. split; reflexivity.
  - right. exists e. split; reflexivity.
Qed.



(** C6.  An edit asked for while a result is shown: when it fails, the
    application is back in the very state it was in (phase Result, the same
    image and metadata); when it succeeds, only the image changes, to the new
    one, and the phase is Result again. *)
Theorem C6_edit_failure_restores_result (instruction img : string) (s : State) :
  phase s = RESULT -> generatedImage s = Some img -> truthy img = true ->
  let obs := handleEdit h instruction s in
  (forall e,
     editCardImage h img instruction = Rejected e ->
     final obs s = s /\ phase (final obs s) = RESULT /\
     alerts obs = ["The magic weave resisted the change. Try a different instruction."]) /\
  (forall newImage,
     editCardImage h img instruction = Fulfilled newImage ->
     final obs s = setGeneratedImage (Some newImage) s /\
     phase (final obs s) = RESULT /\
     constellationData (final obs s) = constellationData s /\
     alerts obs = []).
Proof.
  intros Hphase Himg Htruthy obs. unfold obs, handleEdit. rewrite Himg, Htruthy.
  split.
  - intros e He. rewrite He. cbn [final fold_left alerts flat_map app].
    destruct s as [ph sel cnt cd gi key]. cbn in Hphase |- *. subst ph.
    repeat split.
  - intros newImage Hnew. rewrite Hnew. cbn [final fold_left alerts flat_map app].
    destruct s as [ph sel cnt cd gi key]. cbn in Hphase |- *. subst ph.
    repeat split.
Qed.

End Orchestration.

Section OrchestrationExamples.

Import GeminiService App.


Lemma C6_edit_failure_restores_result_witness :
  let obs := handleEdit offline_browser "add a comet" showing_result in
  (forall e,
     editCardImage offline_browser "aW1hZ2U=" "add a comet" = Rejected e ->
     final obs showing_result = showing_result /\
     phase (final obs showing_result) = RESULT /\
     alerts obs = ["The magic weave resisted the change. Try a different instruction."]) /\
  (forall newImage,
     editCardImage offline_browser "aW1hZ2U=" "add a comet" = Fulfilled newImage ->
     final obs showing_result = setGeneratedImage (Some newImage) showing_result /\
     phase (final obs showing_result) = RESULT /\
     constellationData (final obs showing_result) = constellationData showing_result /\
     alerts obs = []).
Proof.
  apply (C6_edit_failure_restores_result offline_browser "add a comet" "aW1hZ2U="
           showing_result); reflexivity.
Defined.

End OrchestrationExamples.

(** ** The shape of the sketch *)

Section SketchShape.

Import GeminiService.
Local Open Scope R_scope.

Lemma Rmin_shift (a b d : R) : Rmin (a + d) (b + d) = Rmin a b + d.
Proof. unfold Rmin. destruct (Rle_dec (a + d) (b + d)), (Rle_dec a b); lra. Qed.

Lemma Rmax_shift (a b d : R) : Rmax (a + d) (b + d) = Rmax a b + d.
Proof. unfold Rmax. destruct (Rle_dec (a + d) (b + d)), (Rle_dec a b); lra. Qed.

Lemma Rmin_resize (k a b : R) : 0 <= k -> Rmin (k * a) (k * b) = k * Rmin a b.
Proof. intros Hk. unfold Rmin. destruct (Rle_dec (k * a) (k * b)), (Rle_dec a b); nra. Qed.

Lemma Rmax_resize (k a b : R) : 0 <= k -> Rmax (k * a) (k * b) = k * Rmax a b.
Proof. intros Hk. unfold Rmax. destruct (Rle_dec (k * a) (k * b)), (Rle_dec a b); nra. Qed.

Lemma fold_Rmin_shift (d : R) (l : list R) :
  forall a, fold_left Rmin (map (fun v => v + d) l) (a + d) = fold_left Rmin l a + d.
Proof.
  induction l as [| v l IH]; intros a; cbn [map fold_left]; [reflexivity |].
  rewrite <- IH. f_equal. apply Rmin_shift.
Qed.

Lemma fold_Rmax_shift (d : R) (l : list R) :
  forall a, fold_left Rmax (map (fun v => v + d) l) (a + d) = fold_left Rmax l a + d.
Proof.
  induction l as [| v l IH]; intros a; cbn [map fold_left]; [reflexivity |].
  rewrite <- IH. f_equal. apply Rmax_shift.
Qed.

Lemma fold_Rmin_resize (k : R) (l : list R) :
  0 <= k ->
  forall a, fold_left Rmin (map (fun v => k * v) l) (k * a) = k * fold_left Rmin l a.
Proof.
  intros Hk. induction l as [| v l IH]; intros a; cbn [map fold_left]; [reflexivity |].
  rewrite <- IH. f_equal. apply Rmin_resize, Hk.
Qed.

Lemma fold_Rmax_resize (k : R) (l : list R) :
  0 <= k ->
  forall a, fold_left Rmax (map (fun v => k * v) l) (k * a) = k * fold_left Rmax l a.
Proof.
  intros Hk. induction l as [| v l IH]; intros a; cbn [map fold_left]; [reflexivity |].
  rewrite <- IH. f_equal. apply Rmax_resize, Hk.
Qed.

(** The least and the greatest of a scan are among the values scanned. *)
Lemma fold_Rmin_attained (l : list R) : forall a, In (fold_left Rmin l a) (a :: l).
Proof.
  induction l as [| v l IH]; intros a; cbn [fold_left]; [left; reflexivity |].
  destruct (IH (Rmin a v)) as [Heq | Hin]; [| right; right; exact Hin].
  rewrite <- Heq. unfold Rmin. destruct (Rle_dec a v); [left | right; left]; reflexivity.
Qed.

Lemma fold_Rmax_attained (l : list R) : forall a, In (fold_left Rmax l a) (a :: l).
Proof.
  induction l as [| v l IH]; intros a; cbn [fold_left]; [left; reflexivity |].
  destruct (IH (Rmax a v)) as [Heq | Hin]; [| right; right; exact Hin].
  rewrite <- Heq. unfold Rmax. destruct (Rle_dec a v); [right; left | left]; reflexivity.
Qed.

Lemma shifted_real (dx dy : R) (rs : list (R * R)) :
  map (shifted dx dy) (map realPoint rs)
  = map realPoint (map (fun q => (fst q + dx, snd q + dy)) rs).
Proof. rewrite !map_map. apply map_ext. intros q. reflexivity. Qed.

Lemma resized_real (k : R) (rs : list (R * R)) :
  map (resized k) (map realPoint rs)
  = map realPoint (map (fun q => (k * fst q, k * snd q)) rs).
Proof. rewrite !map_map. apply map_ext. intros q. reflexivity. Qed.

(** Outside a browser there is no sketch, whatever the points. *)
Lemma sketch_without_canvas (h : Host) (stars : list Point) :
  ~ in_browser h -> createConstellationSketch h stars = EmptySketch.
Proof.
  intros Hno. unfold createConstellationSketch.
  destruct (has_document h) eqn:Hdoc; cbn [negb]; [| reflexivity].
  destruct (has_context2d h) eqn:Hctx; cbn [negb]; [| reflexivity].
  exfalso. apply Hno. split; assumption.
Qed.

Lemma in_browser_dec (h : Host) : {in_browser h} + {~ in_browser h}.
Proof.
  unfold in_browser. destruct (has_document h), (has_context2d h);
    (left; split; reflexivity) || (right; intros [H1 H2]; discriminate).
Qed.


Lemma scaleR_resize (k w ht : R) :
  0 < k -> 0 < w -> 0 < ht -> scaleR (k * w) (k * ht) = scaleR w ht / k.
Proof.
  intros Hk Hw Hh. unfold scaleR.
  destruct (Rlt_dec 0 (k * w)) as [_ | Hn]; [| exfalso; apply Hn; nra].
  destruct (Rlt_dec 0 (k * ht)) as [_ | Hn]; [| exfalso; apply Hn; nra].
  destruct (Rlt_dec 0 w) as [_ | Hn]; [| contradiction].
  destruct (Rlt_dec 0 ht) as [_ | Hn]; [| contradiction].
  replace (768 * 0.6 / (k * w)) with (/ k * (768 * 0.6 / w)) by (field; lra).
  replace (1024 * 0.4 / (k * ht)) with (/ k * (1024 * 0.4 / ht)) by (field; lra).
  rewrite Rmin_resize by (apply Rlt_le, Rinv_0_lt_compat, Hk).
  field. lra.
Qed.

(** The bounding box of a list of pairs bounds each of them. *)
Lemma bbox_bounds (q : R * R) (rs : list (R * R)) (r : R * R) :
  In r (q :: rs) ->
  fold_left Rmin (map fst rs) (fst q) <= fst r <= fold_left Rmax (map fst rs) (fst q) /\
  fold_left Rmin (map snd rs) (snd q) <= snd r <= fold_left Rmax (map snd rs) (snd q).
Proof.
  intros [<- | Hin]; (split; split);
    (apply fold_Rmin_le || apply fold_Rmax_ge
     || (apply fold_Rmin_lower, in_map, Hin) || (apply fold_Rmax_upper, in_map, Hin)).
Qed.

(** The sketch in terms of four of its points: a leftmost, a rightmost, a
    topmost and a bottommost one. *)
Lemma sketch_frame (h : Host) (stars : list Point) :
  in_browser h -> stars <> [] -> Forall finite_point stars ->
  exists pl pr pt pb : Point,
    (In pl stars /\ In pr stars /\ In pt stars /\ In pb stars) /\
    (forall s, In s stars ->
       toR (x pl) <= toR (x s) <= toR (x pr) /\ toR (y pt) <= toR (y s) <= toR (y pb)) /\
    createConstellationSketch h stars
    = sketch_of
        (map (placed (scaleR (toR (x pr) - toR (x pl)) (toR (y pb) - toR (y pt)))
                     (toR (x pl) + (toR (x pr) - toR (x pl)) / 2)
                     (toR (y pt) + (toR (y pb) - toR (y pt)) / 2)) stars).
Proof.
  intros Hb Hne Hfin. destruct (finite_points_real stars Hfin) as [rs ->].
  destruct rs as [| q rs]; [contradiction Hne; reflexivity |].
  pose proof (fold_Rmin_attained (map fst rs) (fst q)) as Hl.
  pose proof (fold_Rmax_attained (map fst rs) (fst q)) as Hr.
  pose proof (fold_Rmin_attained (map snd rs) (snd q)) as Ht.
  pose proof (fold_Rmax_attained (map snd rs) (snd q)) as Hbm.
  change (fst q :: map fst rs) with (map fst (q :: rs)) in Hl, Hr.
  change (snd q :: map snd rs) with (map snd (q :: rs)) in Ht, Hbm.
  apply in_map_iff in Hl, Hr, Ht, Hbm.
  destruct Hl as (rl & Hl & Hinl), Hr as (rr & Hr & Hinr),
           Ht as (rt & Ht & Hint), Hbm as (rb & Hbm & Hinb).
  exists (realPoint rl), (realPoint rr), (realPoint rt), (realPoint rb).
  cbn [realPoint x y toR]. rewrite Hl, Hr, Ht, Hbm.
  split; [repeat split; apply in_map; assumption |]. split.
  - intros s Hs. apply in_map_iff in Hs. destruct Hs as (r & <- & Hin).
    cbn [realPoint x y toR]. apply bbox_bounds, Hin.
  - apply (sketch_real h Hb q rs).
Qed.





Lemma two_points_spread : spread_x two_points /\ spread_y two_points.
Proof.
  split; exists (realPoint (0, 0)), (realPoint (100, 50));
    (split; [left; reflexivity |]); (split; [right; left; reflexivity |]); cbn; lra.
Qed.






End SketchShape.

(** ** The image steps *)

Section ImageSteps.

Import GeminiService.

Lemma truthy_nonempty (s : string) : truthy s = true <-> s <> "".
Proof.
  unfold truthy. destruct (String.eqb_spec s ""); cbn; split; intros H;
    congruence || (try discriminate) || (exfalso; apply H; assumption).
Qed.

Lemma find_first {A : Type} (f : A -> bool) (l : list A) (a : A) :
  find f l = Some a <->
  exists before after,
    l = before ++ a :: after /\ Forall (fun b => f b = false) before /\ f a = true.
Proof.
  induction l as [| b l IH]; cbn [find].
  - split; [discriminate |]. intros (before & after & Hl & _).
    destruct before; discriminate.
  - destruct (f b) eqn:Hb.
    + split.
      * intros [= <-]. exists [], l. repeat split; [constructor | exact Hb].
      * intros (before & after & Hl & Hbefore & Ha).
        destruct before as [| b' before]; cbn in Hl; injection Hl as <- Hl.
        -- reflexivity.
        -- inversion Hbefore; congruence.
    + rewrite IH. split.
      * intros (before & after & -> & Hbefore & Ha).
        exists (b :: before), after. repeat split; [constructor; assumption | exact Ha].
      * intros (before & after & Hl & Hbefore & Ha).
        destruct before as [| b' before]; cbn in Hl; injection Hl as <- Hl.
        -- congruence.
        -- exists before, after. inversion Hbefore. repeat split; assumption.
Qed.

Lemma extractImage_first (message : string) (response : GenerateContentResponse)
  (d : string) :
  extractImage message response = Fulfilled d <-> first_image response d.
Proof.
  unfold extractImage, first_image. split.
  - destruct (candidates response) as [[| first rest] |]; try discriminate.
    destruct (content first) as [c |] eqn:Hc; try discriminate.
    destruct (parts c) as [ps |] eqn:Hps; try discriminate.
    destruct (find has_image_data ps) as [part |] eqn:Hfind; try discriminate.
    intros [= <-]. apply find_first in Hfind.
    destruct Hfind as (before & after & -> & Hbefore & Hpart).
    unfold has_image_data in Hpart. unfold image_data.
    destruct (inlineData part) as [inline |] eqn:Hinline; [| discriminate].
    destruct (data inline) as [d |] eqn:Hd; [| discriminate].
    exists first, rest, c, before, part, after, inline.
    repeat split; try assumption; try reflexivity. apply truthy_nonempty, Hpart.
  - intros (first & rest & c & before & part & after & inline
            & -> & -> & -> & Hbefore & Hinline & Hd & Hne).
    assert (Hfind : find has_image_data (before ++ part :: after) = Some part).
    { apply find_first. exists before, after. repeat split; [exact Hbefore |].
      unfold has_image_data. rewrite Hinline, Hd. apply truthy_nonempty, Hne. }
    rewrite Hfind. unfold image_data. rewrite Hinline, Hd. reflexivity.
Qed.

Lemma image_step_fulfils (message : string)
  (reply : Settled GenerateContentResponse) (d : string) :
  try_catch (bind reply (extractImage message)) (fun error => Rejected error)
  = Fulfilled d <->
  exists response, reply = Fulfilled response /\ first_image response d.
Proof.
  destruct reply as [response | e]; cbn [bind try_catch].
  - destruct (extractImage message response) as [d' | e'] eqn:Hex; cbn [try_catch].
    + split.
      * intros [= <-]. exists response. split; [reflexivity |].
        apply (proj1 (extractImage_first message response d')), Hex.
      * intros (r & [= <-] & Hfirst).
        apply (proj2 (extractImage_first message response d)) in Hfirst. congruence.
    + split; [discriminate |].
      intros (r & [= <-] & Hfirst).
      apply (proj2 (extractImage_first message response d)) in Hfirst. congruence.
  - split; [discriminate | intros (r & Hr & _); discriminate].
Qed.

(** X6.  Both image steps fulfil exactly when the service answered and the answer
    holds an image, and then with the first image of the first candidate,
    which is never the empty string. *)
Theorem image_steps_return_first_image (h : Host) :
  (forall prompt stars d,
     generateCardImage h prompt stars = Fulfilled d <->
     exists response,
       generateContent h (ImageRequest prompt (createConstellationSketch h stars))
       = Fulfilled response /\ first_image response d) /\
  (forall current instruction d,
     editCardImage h current instruction = Fulfilled d <->
     exists response,
       generateContent h (EditRequest current instruction) = Fulfilled response /\
       first_image response d) /\
  (forall prompt stars d, generateCardImage h prompt stars = Fulfilled d -> truthy d = true) /\
  (forall current instruction d,
     editCardImage h current instruction = Fulfilled d -> truthy d = true).
Proof.
  assert (Hne : forall response d, first_image response d -> truthy d = true).
  { intros response d (? & ? & ? & ? & ? & ? & ? & _ & _ & _ & _ & _ & _ & Hne).
    apply truthy_nonempty, Hne. }
  split; [| split; [| split]].
  - intros prompt stars d. apply image_step_fulfils.
  - intros current instruction d. apply image_step_fulfils.
  - intros prompt stars d Hd. apply image_step_fulfils in Hd.
    destruct Hd as (r & _ & Hfirst). exact (Hne r d Hfirst).
  - intros current instruction d Hd. apply image_step_fulfils in Hd.
    destruct Hd as (r & _ & Hfirst). exact (Hne r d Hfirst).
Qed.

(** A fulfilled image is never empty. *)
Lemma generated_image_truthy (h : Host) (prompt : string) (stars : list Point)
  (d : string) :
  generateCardImage h prompt stars = Fulfilled d -> truthy d = true.
Proof.
  intros Hd. apply image_step_fulfils in Hd.
  destruct Hd as (r & _ & (? & ? & ? & ? & ? & ? & ? & _ & _ & _ & _ & _ & _ & Hne)).
  apply truthy_nonempty, Hne.
Qed.

Lemma edited_image_truthy (h : Host) (current instruction d : string) :
  editCardImage h current instruction = Fulfilled d -> truthy d = true.
Proof.
  intros Hd. apply image_step_fulfils in Hd.
  destruct Hd as (r & _ & (? & ? & ? & ? & ? & ? & ? & _ & _ & _ & _ & _ & _ & Hne)).
  apply truthy_nonempty, Hne.
Qed.

End ImageSteps.

(** ** Sequences of handlers *)

Section JourneyInvariants.

Import GeminiService App Journey.

Lemma commits_app (a b : list Observation) : commits (a ++ b) = commits a ++ commits b.
Proof. apply flat_map_app. Qed.

Lemma final_app (a b : list Observation) (s : State) :
  final (a ++ b) s = final b (final a s).
Proof. apply fold_left_app. Qed.

Lemma initial_invariant : app_invariant initial /\ at_rest (phase initial).
Proof.
  split; [| left; reflexivity].
  split; [discriminate |]. split; [discriminate |].
  intros [H | H]; discriminate.
Qed.

(** One handler, from a state at rest: every state it commits keeps the
    invariant, and it ends at rest. *)
Lemma dispatch_invariant (h : Host) (ev : Event) (s : State) :
  app_invariant s -> at_rest (phase s) ->
  Forall app_invariant (commits (dispatch h ev s)) /\
  app_invariant (final (dispatch h ev s) s) /\
  at_rest (phase (final (dispatch h ev s) s)).
Proof.
  intros (Hconn & Himg & Hres) Hrest.
  destruct ev as [| count | chosen | instruction]; cbn [dispatch].
  - cbn. assert (Hinv : app_invariant (startJourney s)).
    { split; [discriminate |]. split; [discriminate |].
      intros [H | H]; discriminate. }
    split; [constructor; [exact Hinv | constructor] |]. split; [exact Hinv |].
    right; left; reflexivity.
  - cbn. assert (Hinv : app_invariant (handleStarProgress count s)).
    { split; [exact Hconn |]. split; [exact Himg | exact Hres]. }
    split; [constructor; [exact Hinv | constructor] |]. split; [exact Hinv |].
    exact Hrest.
  - destruct (generation_outcomes h chosen s)
      as (m & Hm & [(img & Hgen & ->) | (e & Hgen & ->)]); cbn [commits flat_map app final fold_left].
    + pose proof (generated_image_truthy h _ _ _ Hgen) as Htruthy.
      assert (H1 : app_invariant (setPhase GENERATING_METADATA (setSelectedStars chosen s))).
      { split; [discriminate |]. split; [exact Himg |]. intros [H | H]; discriminate. }
      assert (H2 : app_invariant
                     (setPhase GENERATING_IMAGE
                        (setConstellationData (Some m)
                           (setPhase GENERATING_METADATA (setSelectedStars chosen s))))).
      { split; [discriminate |]. split; [| intros [H | H]; discriminate].
        intros img' Himg'. split; [apply (Himg img' Himg') | discriminate]. }
      assert (H3 : app_invariant
                     (setPhase RESULT
                        (setGeneratedImage (Some img)
                           (setPhase GENERATING_IMAGE
                              (setConstellationData (Some m)
                                 (setPhase GENERATING_METADATA
                                    (setSelectedStars chosen s))))))).
      { split; [discriminate |]. split; [| intros _; discriminate].
        intros img' [= <-]. split; [exact Htruthy | discriminate]. }
      split; [repeat (apply Forall_cons; [assumption |]); apply Forall_nil |]. split; [exact H3 |].
      right; right; reflexivity.
    + assert (H1 : app_invariant (setPhase GENERATING_METADATA (setSelectedStars chosen s))).
      { split; [discriminate |]. split; [exact Himg |]. intros [H | H]; discriminate. }
      assert (H2 : app_invariant
                     (setPhase GENERATING_IMAGE
                        (setConstellationData (Some m)
                           (setPhase GENERATING_METADATA (setSelectedStars chosen s))))).
      { split; [discriminate |]. split; [| intros [H | H]; discriminate].
        intros img' Himg'. split; [apply (Himg img' Himg') | discriminate]. }
      assert (H3 : app_invariant
                     (setPhase INTRO
                        (setPhase GENERATING_IMAGE
                           (setConstellationData (Some m)
                              (setPhase GENERATING_METADATA
                                 (setSelectedStars chosen s)))))).
      { split; [discriminate |]. split; [| intros [H | H]; discriminate].
        intros img' Himg'. split; [apply (Himg img' Himg') | discriminate]. }
      split; [repeat (apply Forall_cons; [assumption |]); apply Forall_nil |]. split; [exact H3 |].
      left; reflexivity.
  - assert (Hinv : app_invariant s) by (split; [| split]; assumption).
    unfold handleEdit.
    destruct (generatedImage s) as [current |] eqn:Hcur;
      [| cbn; split; [constructor | split; [exact Hinv | exact Hrest]]].
    destruct (truthy current) eqn:Htruthy;
      [| cbn; split; [constructor | split; [exact Hinv | exact Hrest]]].
    destruct Hinv as (_ & Himg' & _). rewrite Hcur in Himg'.
    destruct (Himg' current eq_refl) as [_ Hdata].
    assert (H1 : app_invariant (setPhase EDITING s)).
    { split; [discriminate |]. split; [cbn; rewrite Hcur; exact Himg' |].
      intros _. cbn. congruence. }
    destruct (editCardImage h current instruction) as [newImage | e] eqn:Hedit;
      cbn [commits flat_map app final fold_left].
    + pose proof (edited_image_truthy h _ _ _ Hedit) as Hnew.
      assert (H2 : app_invariant
                     (setPhase RESULT (setGeneratedImage (Some newImage) (setPhase EDITING s)))).
      { split; [discriminate |]. split; [| intros _; discriminate].
        intros img' [= <-]. split; [exact Hnew | exact Hdata]. }
      split; [repeat (apply Forall_cons; [assumption |]); apply Forall_nil |]. split; [exact H2 |].
      right; right; reflexivity.
    + assert (H2 : app_invariant (setPhase (phase s) (setPhase EDITING s))).
      { split; [exact Hconn |]. split; [cbn; rewrite Hcur; exact Himg' |].
        intros _. cbn. congruence. }
      split; [repeat (apply Forall_cons; [assumption |]); apply Forall_nil |]. split; [exact H2 | exact Hrest].
Qed.

Lemma run_invariant_from (evs : list (Host * Event)) :
  forall s,
    app_invariant s -> at_rest (phase s) ->
    Forall app_invariant (commits (run evs s)) /\
    app_invariant (final (run evs s) s) /\
    at_rest (phase (final (run evs s) s)).
Proof.
  induction evs as [| [h ev] evs IH]; intros s Hinv Hrest; cbn [run].
  - cbn. split; [constructor | split; assumption].
  - destruct (dispatch_invariant h ev s Hinv Hrest) as (Hall & Hfin & Hrest').
    destruct (IH _ Hfin Hrest') as (Hall2 & Hfin2 & Hrest2).
    rewrite commits_app, final_app. split; [apply Forall_app; split; assumption |].
    split; assumption.
Qed.

(** X7.  However the handlers of the application follow one another from its
    initial state, no committed state is in the connecting phase, and after
    each handler the application is in the intro, the selecting or the result
    phase. *)
Theorem journey_phases (evs : list (Host * Event)) :
  Forall (fun s => phase s <> CONNECTING) (commits (run evs initial)) /\
  at_rest (phase (final (run evs initial) initial)).
Proof.
  destruct initial_invariant as [Hinv Hrest].
  destruct (run_invariant_from evs initial Hinv Hrest) as (Hall & _ & Hrest').
  split; [| exact Hrest'].
  eapply Forall_impl; [| exact Hall]. intros s Hs. apply Hs.
Qed.




End JourneyInvariants.

(** ** From the canvas to the application *)

Section CanvasToApp.

Import GeminiService StarCanvas.

Lemma reports_app (a b : list Effect) : reports (a ++ b) = reports a ++ reports b.
Proof. apply flat_map_app. Qed.

(** The scan only ever answers with a star of the field. *)
Lemma closest_scan_member (px py : number) (field : list Star) :
  forall i best m s,
    fst (forEach_from i
           (fun (star : Star) (_ : nat) '(closestStar, minDist) =>
              if lt (dist px py star) minDist then (Some star, dist px py star)
              else (closestStar, minDist))
           field (best, m)) = Some s ->
    best = Some s \/ In s field.
Proof.
  induction field as [| a field IH]; intros i best m s; cbn [forEach_from].
  - intros H. left. exact H.
  - destruct (lt (dist px py a) m); intros H; apply IH in H.
    + destruct H as [[= <-] | H]; right; [left; reflexivity | right; exact H].
    + destruct H as [H | H]; [left; exact H | right; right; exact H].
Qed.

Lemma closest_member (px py : number) (field : list Star) (s : Star) :
  fst (closest px py field) = Some s -> In s field.
Proof.
  intros H. apply closest_scan_member in H. destruct H as [H | H]; [discriminate | exact H].
Qed.

(** A press appends a star of the field, or nothing. *)
Lemma press_from_field (isActive : bool) (canvas : option DOMRect) (e : PointerEvent)
  (st : State) :
  handleCanvasInteraction isActive canvas e st = (st, []) \/
  exists s,
    In s (stars st) /\
    handleCanvasInteraction isActive canvas e st
    = (setSelectedStars (selectedStars st ++ [s]) st,
       [Progress (S (List.length (selectedStars st)))]).
Proof.
  unfold handleCanvasInteraction.
  destruct (negb isActive || (5 <=? List.length (selectedStars st))%nat);
    [left; reflexivity |].
  destruct canvas as [rect |]; [| left; reflexivity].
  destruct (fst (closest _ _ _)) as [s |] eqn:Hclosest; [| left; reflexivity].
  right. exists s. split; [apply closest_member in Hclosest; exact Hclosest |].
  rewrite length_app. cbn [List.length]. rewrite Nat.add_1_r. reflexivity.
Qed.

(** The reports of a run count up from the number of stars chosen before it
    to the number chosen after it. *)
Lemma run_reports (evs : list Event) :
  forall st,
    (List.length (selectedStars st) <= List.length (selectedStars (fst (run evs st))))%nat /\
    reports (snd (run evs st))
    = seq (S (List.length (selectedStars st)))
          (List.length (selectedStars (fst (run evs st))) - List.length (selectedStars st)).
Proof.
  induction evs as [| ev evs IH]; intros st; cbn [run].
  - cbn [fst snd reports flat_map]. rewrite Nat.sub_diag. split; [lia | reflexivity].
  - assert (Hstep : (selectedStars (fst (step ev st)) = selectedStars st /\
                     reports (snd (step ev st)) = []) \/
                    (exists s, selectedStars (fst (step ev st)) = selectedStars st ++ [s] /\
                               reports (snd (step ev st))
                               = [S (List.length (selectedStars st))])).
    { destruct ev as [isActive canvas e | | newStars]; cbn [step].
      - destruct (press_from_field isActive canvas e st) as [-> | (s & _ & ->)].
        + left. repeat split.
        + right. exists s. split; reflexivity.
      - left. unfold connectionEffect.
        destruct (_ && _); cbn; repeat split.
      - left. cbn. repeat split. }
    destruct (step ev st) as [st1 out1]. cbn [fst snd] in Hstep.
    specialize (IH st1). destruct (run evs st1) as [st2 out2]. cbn [fst snd] in IH |- *.
    destruct IH as [Hle IH]. rewrite reports_app, IH.
    destruct Hstep as [(Hsel & ->) | (s & Hsel & ->)]; rewrite Hsel in *.
    + split; [exact Hle | reflexivity].
    + rewrite length_app in *. cbn [List.length] in *. split; [lia |].
      replace (List.length (selectedStars st2) - List.length (selectedStars st))%nat
        with (S (List.length (selectedStars st2) - (List.length (selectedStars st) + 1)))
        by lia.
      cbn [seq app]. rewrite Nat.add_1_r. reflexivity.
Qed.

Lemma last_cons_default {A : Type} (l : list A) :
  forall a d, last (a :: l) d = last l a.
Proof.
  induction l as [| b l IH]; intros a d; [reflexivity |].
  change (last (a :: b :: l) d) with (last (b :: l) d). rewrite !IH. reflexivity.
Qed.

Lemma deliver_last (out : list Effect) :
  forall s, App.starCount (Journey.deliver out s) = last (reports out) (App.starCount s).
Proof.
  unfold Journey.deliver.
  induction out as [| o out IH]; intros s; cbn [fold_left]; [reflexivity |].
  rewrite IH. destruct o as [count | d arg].
  - change (reports (Progress count :: out)) with (count :: reports out).
    cbn [App.handleStarProgress App.setStarCount App.starCount].
    symmetry. apply last_cons_default.
  - reflexivity.
Qed.

(** X10.  The canvas reports 1, 2, ... up to the number of stars chosen, each once
    and in order; delivered to an application that has just started a
    journey, they leave its count at the number of stars chosen, so that the
    hint shows how many of the five are still to choose. *)
Theorem progress_counts_the_selection (evs : list Event) (s : App.State) :
  let chosen := List.length (selectedStars (fst (run evs mounted))) in
  let app := Journey.deliver (snd (run evs mounted)) (App.startJourney s) in
  reports (snd (run evs mounted)) = seq 1 chosen /\
  App.starCount app = chosen /\
  Journey.remaining app = (5 - Z.of_nat chosen)%Z /\
  (0 <= Journey.remaining app <= 5)%Z.
Proof.
  intros chosen app.
  destruct (run_reports evs mounted) as [_ Hrep]. cbn [mounted selectedStars List.length] in Hrep.
  rewrite Nat.sub_0_r in Hrep. fold chosen in Hrep.
  assert (Hcap : (chosen <= 5)%nat)
    by exact (proj1 (run_invariant evs mounted [] mounted_invariant)).
  assert (Hcount : App.starCount app = chosen).
  { unfold app. rewrite deliver_last, Hrep. cbn [App.startJourney App.starCount
      App.setCanvasKey App.setGeneratedImage App.setConstellationData App.setStarCount].
    destruct chosen as [| n]; [reflexivity |].
    rewrite seq_S. cbn [plus]. rewrite last_last. reflexivity. }
  split; [exact Hrep |]. split; [exact Hcount |].
  unfold Journey.remaining. rewrite Hcount. lia.
Qed.

(** Where the stars of the field and of the selection come from. *)
Lemma run_origins (evs : list Event) :
  forall st,
    (forall s, In s (stars (fst (run evs st))) ->
       In s (stars st) \/ exists field, In field (fields_of evs) /\ In s field) /\
    (forall s, In s (selectedStars (fst (run evs st))) ->
       In s (selectedStars st) \/ In s (stars st) \/
       exists field, In field (fields_of evs) /\ In s field).
Proof.
  induction evs as [| ev evs IH]; intros st; cbn [run].
  - cbn [fst]. split; intros s Hs; [left | left]; exact Hs.
  - specialize (IH (fst (step ev st))).
    destruct (step ev st) as [st1 out1] eqn:Hstep. cbn [fst] in IH.
    destruct (run evs st1) as [st2 out2]. cbn [fst] in IH |- *.
    destruct IH as [IHf IHs].
    assert (Hlift : forall s, (exists field, In field (fields_of evs) /\ In s field) ->
                              exists field, In field (fields_of (ev :: evs)) /\ In s field).
    { intros s (field & Hin & Hs). exists field. split; [| exact Hs].
      unfold fields_of. cbn [flat_map]. apply in_or_app. right. exact Hin. }
    destruct ev as [isActive canvas e | | newStars]; cbn [step] in Hstep.
    + destruct (press_from_field isActive canvas e st) as [Hsame | (c & Hc & Happ)];
        rewrite Hstep in *.
      * injection Hsame as -> _. split; intros s Hs.
        -- destruct (IHf s Hs) as [H | H]; [left; exact H | right; exact (Hlift s H)].
        -- destruct (IHs s Hs) as [H | [H | H]];
             [left; exact H | right; left; exact H | right; right; exact (Hlift s H)].
      * injection Happ as -> _.
        cbn [setSelectedStars stars selectedStars] in IHf, IHs. split; intros s Hs.
        -- destruct (IHf s Hs) as [H | H]; [left; exact H | right; exact (Hlift s H)].
        -- destruct (IHs s Hs) as [H | [H | H]].
           ++ apply in_app_or in H. destruct H as [H | [<- | []]];
                [left; exact H | right; left; exact Hc].
           ++ right; left; exact H.
           ++ right; right; exact (Hlift s H).
    + unfold connectionEffect in Hstep.
      assert (Hf : stars st1 = stars st /\ selectedStars st1 = selectedStars st).
      { destruct (_ && _); injection Hstep as <- _; split; reflexivity. }
      destruct Hf as [Hf1 Hf2]. rewrite Hf1, Hf2 in *. split; intros s Hs.
      * destruct (IHf s Hs) as [H | H]; [left; exact H | right; exact (Hlift s H)].
      * destruct (IHs s Hs) as [H | [H | H]];
          [left; exact H | right; left; exact H | right; right; exact (Hlift s H)].
    + injection Hstep as <- _. cbn [setStars stars selectedStars] in IHf, IHs.
      assert (Hnew : forall s, In s newStars ->
                exists field, In field (fields_of (StarsInitialized newStars :: evs))
                              /\ In s field).
      { intros s Hs. exists newStars. split; [left; reflexivity | exact Hs]. }
      split; intros s Hs.
      * destruct (IHf s Hs) as [H | H]; right; [exact (Hnew s H) | exact (Hlift s H)].
      * destruct (IHs s Hs) as [H | [H | H]];
          [left; exact H | right; right; exact (Hnew s H) | right; right; exact (Hlift s H)].
Qed.

(** Every chosen star is a star of a field that [initStars] stored. *)
Lemma chosen_from_fields (evs : list Event) (s : Star) :
  In s (selectedStars (fst (run evs mounted))) ->
  exists field, In field (fields_of evs) /\ In s field.
Proof.
  intros Hs. destruct (proj2 (run_origins evs mounted) s Hs) as [[] | [[] | H]]. exact H.
Qed.


Lemma five_taps_timer (i : Z) :
  timeouts (snd (run (rendered (five_taps i)) mounted))
  = [(1500%Z, repeat (star_at_10_10 i) 5)].
Proof.
  unfold five_taps, rendered. cbn [repeat flat_map app].
  cbn [run step]. unfold setStars, mounted.
  cbn [stars selectedStars isAnimatingConnection].
  repeat first
    [ rewrite tap_selects by (cbn; lia)
    | progress (unfold connectionEffect, setIsAnimatingConnection)
    | progress cbn [stars selectedStars isAnimatingConnection List.length Nat.eqb
                    andb negb app] ].
  reflexivity.
Qed.


End CanvasToApp.

(** ** The star field *)

Section Field.

Import StarCanvas StarField.
Local Open Scope R_scope.

(** The loop in closed form. *)
Lemma pushStars_closed (w h : number) (rand : nat -> number) (rounds : nat) :
  forall i k acc,
    pushStars rounds w h rand i k acc
    = acc ++ map (fun j => newStar w h rand (i + j) (k + 4 * j)) (seq 0 rounds).
Proof.
  induction rounds as [| rounds IH]; intros i k acc; cbn [pushStars].
  - cbn. rewrite app_nil_r. reflexivity.
  - rewrite IH, <- app_assoc. f_equal.
    change (seq 0 (S rounds)) with (0%nat :: seq 1 rounds).
    rewrite <- seq_shift. cbn [map app]. rewrite map_map.
    rewrite Nat.add_0_r, Nat.mul_0_r, Nat.add_0_r. f_equal.
    apply map_ext. intros j. f_equal; lia.
Qed.

Lemma NoDup_map_injective {A B : Type} (f : A -> B) (l : list A) :
  (forall a b, f a = f b -> a = b) -> NoDup l -> NoDup (map f l).
Proof.
  intros Hinj. induction 1 as [| a l Hnotin _ IH]; cbn [map]; constructor; [| exact IH].
  intros Hin. apply in_map_iff in Hin. destruct Hin as (b & Hb & Hin).
  apply Hinj in Hb. subst b. contradiction.
Qed.

Lemma newStar_in_field (W H : R) (rand : nat -> number) (i k : nat) :
  unit_draws rand -> 0 <= W -> 0 <= H ->
  star_in_field W H (newStar (Fin W) (Fin H) rand i k).
Proof.
  intros Hrand HW HH.
  destruct (Hrand k) as (a & Ha & Ha1), (Hrand (k + 1)%nat) as (b & Hb & Hb1),
           (Hrand (k + 2)%nat) as (c & Hc & Hc1), (Hrand (k + 3)%nat) as (d & Hd & Hd1).
  exists (a * W), (b * H), (c * 2 + 1), (d * 0.5 + 0.3).
  unfold newStar. cbn [x y size alpha isSelected star_point].
  rewrite Ha, Hb, Hc, Hd. cbn [mul add].
  repeat split; try reflexivity; try nra.
Qed.


Lemma initStars_in_bounds (el : CanvasElement) (rand : nat -> number) (st : State)
  (W H : R) :
  unit_draws rand ->
  bounds_width el = Fin W -> bounds_height el = Fin H -> 0 <= W -> 0 <= H ->
  Forall (star_in_field W H) (stars (snd (initStars (Some el) rand st))).
Proof.
  intros Hrand HW HH HW0 HH0.
  unfold initStars. cbv zeta. cbn [snd setStars stars].
  rewrite pushStars_closed, HW, HH. cbn [app].
  apply Forall_map, Forall_forall. intros j _. apply newStar_in_field; assumption.
Qed.


Lemma halves_unit : unit_draws halves.
Proof. intros k. exists 0.5. split; [reflexivity | lra]. Qed.


End Field.

(** ** The draw loop *)

Section Frames.

Import StarCanvas StarField RenderLoop.
Local Open Scope R_scope.

Lemma chosen_id_existsb (selected : list Star) (star : Star) :
  existsb (fun s => Z.eqb (id s) (id star)) selected = true <-> chosen_id selected star.
Proof.
  unfold chosen_id. rewrite existsb_exists.
  split; intros (s & Hin & Hid); exists s; (split; [exact Hin |]); apply Z.eqb_eq, Hid.
Qed.

(** The line loop from a star of the selection to its end. *)
Lemma drawLines_closed (before : list Star) (a : Star) (rest : list Star) :
  forall c,
    drawLines (List.length rest) (List.length before) (before ++ a :: rest) c
    = set_path (path c ++ segments (a :: rest)) c.
Proof.
  revert before a. induction rest as [| b rest IH]; intros before a c; cbn [drawLines List.length].
  - cbn [segments]. rewrite app_nil_r. destruct c; reflexivity.
  - assert (H0 : nth_error (before ++ a :: b :: rest) (List.length before) = Some a).
    { rewrite nth_error_app2 by lia. rewrite Nat.sub_diag. reflexivity. }
    assert (H1 : nth_error (before ++ a :: b :: rest) (S (List.length before)) = Some b).
    { rewrite nth_error_app2 by lia.
      replace (S (List.length before) - List.length before)%nat with 1%nat by lia.
      reflexivity. }
    rewrite H0, H1.
    specialize (IH (before ++ [a]) b (lineTo (x b) (y b) (moveTo (x a) (y a) c))).
    rewrite length_app, <- app_assoc in IH. cbn [List.length app] in IH.
    rewrite Nat.add_1_r in IH. rewrite IH.
    unfold lineTo, moveTo, set_path. cbn [path fillStyle strokeStyle lineWidth shadowBlur
      shadowColor marks]. cbn [segments]. rewrite <- !app_assoc. reflexivity.
Qed.

(** One star: one more mark, the blur back at zero. *)
Lemma drawStar_mark (selected : list Star) (rand : nat -> number) (star : Star)
  (c : Context) (k : nat) :
  exists m,
    drawn_as selected rand star m /\
    marks (fst (drawStar selected rand star (c, k))) = marks c ++ [m].
Proof.
  unfold drawStar.
  destruct (existsb _ selected) eqn:Hsel.
  - exists (gold_disc star). split; [left; split; [apply chosen_id_existsb, Hsel | reflexivity] |].
    reflexivity.
  - exists (white_disc star (twinkle_alpha rand k star) (shadowColor c)).
    split; [| reflexivity].
    right. split; [| exists k, (shadowColor c); reflexivity].
    intros Hc. apply chosen_id_existsb in Hc. congruence.
Qed.

Lemma star_loop (selected : list Star) (rand : nat -> number) (field : list Star) :
  forall i c k,
    exists discs,
      Forall2 (drawn_as selected rand) field discs /\
      marks (fst (forEach_from i (fun star (_ : nat) ck => drawStar selected rand star ck)
                               field (c, k)))
      = marks c ++ discs.
Proof.
  induction field as [| star field IH]; intros i c k; cbn [forEach_from].
  - exists []. split; [constructor | rewrite app_nil_r; reflexivity].
  - destruct (drawStar_mark selected rand star c k) as (m & Hm & Hmarks).
    destruct (drawStar selected rand star (c, k)) as [c1 k1]. cbn [fst] in Hmarks.
    destruct (IH (S i) c1 k1) as (discs & Hdiscs & Heq).
    exists (m :: discs). split; [constructor; assumption |].
    rewrite Heq, Hmarks, <- app_assoc. reflexivity.
Qed.

(** The marks of a frame. *)
Lemma frame_marks (el : CanvasElement) (rand : nat -> number) (st : State) (c : Context) :
  exists discs,
    Forall2 (drawn_as (selectedStars st) rand) (stars st) discs /\
    marks (fst (render (Some el) true rand st c))
    = marks c
      ++ ClearRect (Fin 0) (Fin 0) (width el) (height el)
         :: line_marks (selectedStars st) (shadowBlur c) (shadowColor c) ++ discs.
Proof.
  unfold render. cbn [negb]. unfold forEach.
  set (c1 := clearRect (Fin 0) (Fin 0) (width el) (height el) c).
  set (c2 := if (1 <? List.length (selectedStars st))%nat then _ else c1).
  assert (Hc2 : marks c2 = marks c1
                           ++ line_marks (selectedStars st) (shadowBlur c) (shadowColor c)).
  { unfold c2, line_marks.
    destruct (selectedStars st) as [| a [| b rest]] eqn:Hsel;
      cbn [List.length Nat.ltb Nat.leb]; try (rewrite app_nil_r; reflexivity).
    replace (S (S (List.length rest)) - 1)%nat with (List.length (b :: rest))
      by (cbn [List.length]; lia).
    rewrite (drawLines_closed [] a (b :: rest)). reflexivity. }
  destruct (star_loop (selectedStars st) rand (stars st) 0 c2 0) as (discs & Hdiscs & Heq).
  exists discs. split; [exact Hdiscs |].
  destruct (forEach_from 0 _ (stars st) (c2, 0%nat)) as [c3 k3].
  cbn [fst] in Heq |- *. rewrite Heq, Hc2. unfold c1, clearRect, mark. cbn [marks].
  rewrite <- !app_assoc. reflexivity.
Qed.

(** X14.  A frame clears the whole drawing buffer, strokes one line through the
    chosen stars in the order they were chosen when there are two or more of
    them (and none otherwise), then draws every star of the field once, in
    order: gold when its id is the id of a chosen star, white otherwise; and
    it asks for the next frame.  Without a canvas or without a context it
    paints nothing and asks for no further frame. *)
Theorem render_frame (el : CanvasElement) (rand : nat -> number) (st : State)
  (c : Context) :
  (exists discs,
     Forall2 (drawn_as (selectedStars st) rand) (stars st) discs /\
     marks (fst (render (Some el) true rand st c))
     = marks c
       ++ ClearRect (Fin 0) (Fin 0) (width el) (height el)
          :: line_marks (selectedStars st) (shadowBlur c) (shadowColor c) ++ discs) /\
  snd (render (Some el) true rand st c) = true /\
  render None true rand st c = (c, false) /\
  render (Some el) false rand st c = (c, false).
Proof.
  split; [apply frame_marks | split; [| split; reflexivity]].
  unfold render. cbn [negb].
  destruct (forEach _ (stars st) _) as [c3 k3]. reflexivity.
Qed.

Lemma twinkle_alpha_bounds (rand : nat -> number) (k : nat) (star : Star) (al : R) :
  unit_draws rand -> alpha star = Fin al ->
  exists a : R,
    twinkle_alpha rand k star = Fin a /\ 0 <= a <= 1 /\
    (0 <= al <= 0.8 -> al <= a < al + 0.2).
Proof.
  intros Hrand Hal. unfold twinkle_alpha. rewrite Hal.
  destruct (Hrand k) as (t & -> & Ht), (Hrand (S k)) as (u & -> & Hu).
  unfold gt. rewrite lt_Fin. cbn [mul].
  set (extra := if (if Rlt_dec 0.9 u then true else false) then Fin (t * 0.2) else Fin 0).
  assert (Hextra : exists ex, extra = Fin ex /\ 0 <= ex < 0.2).
  { unfold extra. destruct (Rlt_dec 0.9 u); eexists; (split; [reflexivity | lra]). }
  destruct Hextra as (ex & -> & Hex). cbn [add].
  rewrite Math_min_Fin, Math_max_Fin.
  eexists. split; [reflexivity |]. split.
  - split; [apply Rmax_l |]. apply Rmax_lub; [lra | apply Rmin_l].
  - intros Hrange. rewrite Rmin_right by lra. rewrite Rmax_right by lra. lra.
Qed.



End Frames.

(** ** The card *)

Section Card.

Import Ascii SparkCard.

Lemma all_chars_append (test : ascii -> bool) (a b : string) :
  all_chars test (a ++ b)%string = all_chars test a && all_chars test b.
Proof.
  induction a as [| c a IH]; cbn [String.append all_chars]; [reflexivity |].
  rewrite IH, andb_assoc. reflexivity.
Qed.

Lemma lower_plain (c : ascii) :
  is_upper (lower c) = false /\ is_space (lower c) = is_space c.
Proof. destruct c as [[] [] [] [] [] [] [] []]; split; reflexivity. Qed.

Lemma lower_of_plain (c : ascii) : is_upper c = false -> lower c = c.
Proof. intros H. unfold lower. rewrite H. reflexivity. Qed.

Lemma replaced_has_no_space (s : string) :
  forall in_run, all_chars (fun c => negb (is_space c)) (replaceSpaceRuns in_run s) = true.
Proof.
  induction s as [| c s IH]; intros in_run; cbn [replaceSpaceRuns]; [reflexivity |].
  destruct (is_space c) eqn:Hc.
  - destruct in_run; [apply IH |]. cbn [all_chars]. rewrite IH. reflexivity.
  - cbn [all_chars]. rewrite Hc, IH. reflexivity.
Qed.

Lemma replaced_not_longer (s : string) :
  forall in_run, (String.length (replaceSpaceRuns in_run s) <= String.length s)%nat.
Proof.
  induction s as [| c s IH]; intros in_run; cbn [replaceSpaceRuns String.length]; [lia |].
  destruct (is_space c); [destruct in_run |]; cbn [String.length];
    [specialize (IH true) | specialize (IH true) | specialize (IH false)]; lia.
Qed.

Lemma replaced_without_space (s : string) :
  all_chars (fun c => negb (is_space c)) s = true ->
  forall in_run, replaceSpaceRuns in_run s = s.
Proof.
  induction s as [| c s IH]; cbn [all_chars replaceSpaceRuns]; intros H in_run;
    [reflexivity |].
  apply andb_true_iff in H. destruct H as [Hc Hs].
  apply negb_true_iff in Hc. rewrite Hc, (IH Hs). reflexivity.
Qed.

Lemma lowered_is_plain (s : string) :
  all_chars (fun c => negb (is_space c)) s = true ->
  all_chars plain_char (toLowerCase s) = true.
Proof.
  induction s as [| c s IH]; cbn [all_chars toLowerCase]; intros H; [reflexivity |].
  apply andb_true_iff in H. destruct H as [Hc Hs].
  destruct (lower_plain c) as [Hup Hsp]. unfold plain_char at 1.
  rewrite Hup, Hsp, Hc, (IH Hs). reflexivity.
Qed.

Lemma lowered_same_length (s : string) : String.length (toLowerCase s) = String.length s.
Proof. induction s as [| c s IH]; cbn; [reflexivity | rewrite IH; reflexivity]. Qed.

Lemma lowered_plain_same (s : string) :
  all_chars plain_char s = true -> toLowerCase s = s.
Proof.
  induction s as [| c s IH]; cbn [all_chars toLowerCase]; intros H; [reflexivity |].
  apply andb_true_iff in H. destruct H as [Hc Hs].
  unfold plain_char in Hc. apply andb_true_iff in Hc. destruct Hc as [_ Hup].
  apply negb_true_iff in Hup. rewrite (lower_of_plain c Hup), (IH Hs). reflexivity.
Qed.

Lemma plain_has_no_space (s : string) :
  all_chars plain_char s = true -> all_chars (fun c => negb (is_space c)) s = true.
Proof.
  induction s as [| c s IH]; cbn [all_chars]; intros H; [reflexivity |].
  apply andb_true_iff in H. destruct H as [Hc Hs].
  unfold plain_char in Hc. apply andb_true_iff in Hc. destruct Hc as [Hsp _].
  rewrite Hsp, (IH Hs). reflexivity.
Qed.

(** X16.  For a name of ASCII characters, the file name of the download holds no
    white space and no upper-case letter; it is [celestial-spark-], a part
    no longer than the name, and [.jpg]; and that part is the name itself when
    the name has neither white space nor upper-case letters. *)
Theorem download_name_is_plain (metadata : ConstellationMetadata) (image : string) :
  ascii_only (name metadata) ->
  let link := handleDownload metadata image in
  all_chars plain_char (download link) = true /\
  (exists part,
     download link = ("celestial-spark-" ++ part ++ ".jpg")%string /\
     (String.length part <= String.length (name metadata))%nat) /\
  (all_chars plain_char (name metadata) = true ->
   download link = ("celestial-spark-" ++ name metadata ++ ".jpg")%string) /\
  href link = ("data:image/jpeg;base64," ++ image)%string.
Proof.
  intros _ link. unfold link, handleDownload. cbn [download href].
  split; [| split; [| split; [| reflexivity]]].
  - rewrite !all_chars_append.
    rewrite (lowered_is_plain _ (replaced_has_no_space (name metadata) false)).
    reflexivity.
  - eexists. split; [reflexivity |].
    rewrite lowered_same_length. apply replaced_not_longer.
  - intros Hplain.
    rewrite (replaced_without_space _ (plain_has_no_space _ Hplain)).
    rewrite (lowered_plain_same _ Hplain). reflexivity.
Qed.

Lemma download_name_is_plain_witness :
  let link := handleDownload (named "The Unseen  Path") "aW1hZ2U=" in
  all_chars plain_char (download link) = true /\
  (exists part,
     download link = ("celestial-spark-" ++ part ++ ".jpg")%string /\
     (String.length part <= String.length (name (named "The Unseen  Path")))%nat) /\
  (all_chars plain_char (name (named "The Unseen  Path")) = true ->
   download link = ("celestial-spark-" ++ name (named "The Unseen  Path") ++ ".jpg")%string) /\
  href link = ("data:image/jpeg;base64," ++ "aW1hZ2U=")%string.
Proof.
  apply (download_name_is_plain (named "The Unseen  Path") "aW1hZ2U="). reflexivity.
Defined.

Lemma trimStart_blank (s : string) :
  all_chars is_space s = true -> trimStart s = "".
Proof.
  induction s as [| c s IH]; cbn [all_chars trimStart]; intros H; [reflexivity |].
  apply andb_true_iff in H. destruct H as [-> Hs]. apply IH, Hs.
Qed.

Lemma trimEnd_of_nonspace (c : ascii) (s : string) :
  is_space c = false -> trimEnd (String c s) <> "".
Proof.
  intros Hc. cbn [trimEnd]. rewrite Hc. destruct (trimEnd s); discriminate.
Qed.

Lemma trim_not_blank (s : string) :
  all_chars is_space s = false -> trim s <> "".
Proof.
  unfold trim. induction s as [| c s IH]; cbn [all_chars trimStart]; [discriminate |].
  destruct (is_space c) eqn:Hc; cbn [andb]; intros H.
  - apply IH, H.
  - apply trimEnd_of_nonspace, Hc.
Qed.

(** X17.  For an instruction of ASCII characters: when it is empty or all white
    space, submitting hands nothing to [onEdit] and leaves the input as it is,
    and the button is disabled; otherwise the instruction is handed over
    exactly as typed, not trimmed, the input is emptied, and the button is
    enabled unless an edit is running. *)
Theorem edit_submit_needs_text (editPrompt : string) :
  ascii_only editPrompt ->
  (all_chars is_space editPrompt = true ->
   handleEditSubmit editPrompt = (None, editPrompt) /\
   forall isEditing, edit_disabled isEditing editPrompt = true) /\
  (all_chars is_space editPrompt = false ->
   handleEditSubmit editPrompt = (Some editPrompt, "") /\
   forall isEditing, edit_disabled isEditing editPrompt = isEditing).
Proof.
  intros _. unfold handleEditSubmit, edit_disabled. split; intros H.
  - unfold trim. rewrite (trimStart_blank _ H). cbn.
    split; [reflexivity | intros b; apply orb_true_r].
  - pose proof (trim_not_blank _ H) as Hne. apply truthy_nonempty in Hne.
    rewrite Hne. split; [reflexivity | intros b; apply orb_false_r].
Qed.

Lemma edit_submit_needs_text_witness :
  (all_chars is_space " add a comet " = true ->
   handleEditSubmit " add a comet " = (None, " add a comet ") /\
   forall isEditing, edit_disabled isEditing " add a comet " = true) /\
  (all_chars is_space " add a comet " = false ->
   handleEditSubmit " add a comet " = (Some " add a comet ", "") /\
   forall isEditing, edit_disabled isEditing " add a comet " = isEditing).
Proof. apply (edit_submit_needs_text " add a comet "). reflexivity. Defined.

End Card.

(** ** More on the handlers and on the normalization *)

Section MoreProperties.

Import GeminiService App Journey.
Local Open Scope R_scope.

Lemma dispatch_key (h : Host) (ev : Event) (s : State) :
  canvasKey (final (dispatch h ev s) s)
  = (canvasKey s + match ev with Start => 1 | _ => 0 end)%nat.
Proof.
  destruct ev as [| count | chosen | instruction]; cbn [dispatch].
  - reflexivity.
  - cbn. lia.
  - destruct (generation_outcomes h chosen s) as (m & _ & [(img & _ & ->) | (e & _ & ->)]);
      cbn; lia.
  - unfold handleEdit. destruct (generatedImage s) as [current |]; [| cbn; lia].
    destruct (truthy current); [| cbn; lia].
    destruct (editCardImage h current instruction); cbn; lia.
Qed.

(** X18.  The key of the canvas counts the journeys started: each start mounts a
    canvas under a key no canvas had before, and no other handler changes the
    key. *)
Theorem canvas_key_counts_starts (evs : list (Host * Event)) :
  canvasKey (final (run evs initial) initial) = starts evs /\
  forall h,
    canvasKey (final (run (evs ++ [(h, Start)]) initial) initial)
    = S (canvasKey (final (run evs initial) initial)).
Proof.
  assert (Hgen : forall evs s,
             canvasKey (final (run evs s) s) = (canvasKey s + starts evs)%nat).
  { clear evs. induction evs as [| [h ev] evs IH]; intros s; cbn [run].
    - cbn. lia.
    - rewrite final_app, IH, dispatch_key. unfold starts. cbn [filter snd].
      destruct ev; cbn [List.length]; lia. }
  split; [rewrite Hgen; reflexivity |].
  intros h. rewrite !Hgen. unfold starts. rewrite filter_app, length_app. cbn. lia.
Qed.



(** X20.  When the field was made for a canvas as large as the viewport, every
    star of it is sent as whole numbers between 0 and 100. *)
Theorem field_stars_normalize_to_percent (el : StarField.CanvasElement)
  (rand : nat -> number) (st : StarCanvas.State) (W H : R) :
  unit_draws rand ->
  StarField.bounds_width el = Fin W -> StarField.bounds_height el = Fin H ->
  0 < W -> 0 < H ->
  Forall (fun p => percent (x p) /\ percent (y p))
    (normalizedStars
       (map star_point (StarCanvas.stars (snd (StarField.initStars (Some el) rand st))))
       (Fin W) (Fin H)).
Proof.
  intros Hrand HW HH HW0 HH0.
  pose proof (initStars_in_bounds el rand st W H Hrand HW HH
                (Rlt_le _ _ HW0) (Rlt_le _ _ HH0)) as Hfield.
  unfold normalizedStars. rewrite map_map. apply Forall_map.
  eapply Forall_impl; [| exact Hfield].
  intros s (a & b & sz & al & Hx & Hy & _ & _ & Ha & _ & Hb & _).
  cbn [x y]. rewrite Hx, Hy.
  fold (percent_of (Fin a) (Fin W)). fold (percent_of (Fin b) (Fin H)).
  rewrite !percent_of_Fin by lra.
  split; eexists; (split; [reflexivity |]); apply percent_range; assumption.
Qed.

Lemma field_stars_normalize_to_percent_witness :
  Forall (fun p => percent (x p) /\ percent (y p))
    (normalizedStars
       (map star_point
          (StarCanvas.stars (snd (StarField.initStars (Some small_canvas) halves
                                    StarCanvas.mounted))))
       (Fin 1280) (Fin 720)).
Proof.
  apply (field_stars_normalize_to_percent small_canvas halves StarCanvas.mounted 1280 720).
  - exact halves_unit.
  - reflexivity.
  - reflexivity.
  - lra.
  - lra.
Defined.



End MoreProperties.

(** ** Worked examples *)

Section Examples.

Import GeminiService App.
Local Open Scope R_scope.

(** Two points 100 apart in [x] and 50 in [y]: the width ratio 4.608 is the
    smaller one, and the sketch spans the full width of the target region. *)
Example sketch_of_two_points :
  createConstellationSketch offline_browser two_points
  = sketch_of [(Fin 153.6, Fin 243.2); (Fin 614.4, Fin 473.6)].
Proof.
  change two_points with (map realPoint [(0, 0); (100, 50)]).
  rewrite (sketch_real offline_browser (conj eq_refl eq_refl) (0, 0) [(100, 50)]).
  cbn [map fst snd fold_left].
  rewrite (Rmin_left 0 100), (Rmax_right 0 100), (Rmin_left 0 50), (Rmax_right 0 50) by lra.
  assert (Hs : scaleR (100 - 0) (50 - 0) = 4.608).
  { unfold scaleR. destruct (Rlt_dec 0 (100 - 0)); [| lra].
    destruct (Rlt_dec 0 (50 - 0)); [| lra]. rewrite Rmin_left; lra. }
  rewrite Hs. unfold placed. cbn [realPoint x y toR fst snd].
  repeat (f_equal; try lra).
Qed.

(** The centre of a 1280 by 720 viewport is sent as [(50, 50)]. *)
Example normalized_centre :
  normalizedStars [realPoint (640, 360)] (Fin 1280) (Fin 720)
  = [ {| x := Fin 50; y := Fin 50 |} ].
Proof.
  unfold normalizedStars. cbn [map realPoint x y fst snd].
  rewrite !div_Fin by lra. cbn [mul Math_round].
  rewrite (Zfloor_eq 50 (640 / 1280 * 100 + / 2)) by (simpl; lra).
  rewrite (Zfloor_eq 50 (360 / 720 * 100 + / 2)) by (simpl; lra).
  reflexivity.
Qed.

(** With the service unreachable the metadata step answers with the
    fallback, and the generation ends in the intro phase with it stored. *)
Example offline_generation :
  generateConstellationMetadata offline_browser two_points (Fin 1280) (Fin 720)
  = Fulfilled fallbackMetadata /\
  map phase (commits (handleStarsSelected offline_browser two_points initial))
  = [GENERATING_METADATA; GENERATING_IMAGE; INTRO] /\
  constellationData (final (handleStarsSelected offline_browser two_points initial) initial)
  = Some fallbackMetadata.
Proof. repeat split. Qed.

End Examples.
